(** * qutebrowser/utils/resources.py: resource resolution, enumeration and caching

    A shallow embedding of the module [qutebrowser.utils.resources] and
    of the parts of the Python library it calls, followed by the
    properties of the module.

    Conventions.
    - A Python [str] is a [string]; one [ascii] stands for one character.
    - [bytes] is [list byte].
    - A call either returns or raises: [result].  Only the class of an
      exception is kept, not its message.
    - [assert] statements are executed (the interpreter does not run
      with [-O]).
    - The module global [_resource_cache] is a [gmap string string] that
      is threaded through every function of the module ([M]).
    - The host is a POSIX system ([pathlib.Path] is [PosixPath]).  Its
      file system has directories and regular files, all of them
      readable, and does not change while the module runs; symbolic
      links are not modelled.  A path with a NUL character is refused
      by Python ([ValueError]), a name or a path over the limits of
      the system by the system ([OSError], [ENAMETOOLONG]). *)

From Stdlib Require Import Strings.String Strings.Ascii Strings.Byte.
From Stdlib Require Import List Bool Arith Lia.
From stdpp Require Import base option list strings gmap.

Local Open Scope string_scope.

(** ** Python values: exceptions and results *)

Inductive exn : Type :=
  | AssertionError
  | KeyError
  | FileNotFoundError
  | IsADirectoryError
  | NotADirectoryError
  | UnicodeDecodeError
  | ValueError
  | OSError.

Inductive result (A : Type) : Type :=
  | Ok (a : A)
  | Raise (e : exn).
Arguments Ok {A} a.
Arguments Raise {A} e.

Definition result_bind {A B} (r : result A) (k : A → result B) : result B :=
  match r with
  | Ok a => k a
  | Raise e => Raise e
  end.

(** A generator that has not been started: the values it yields and, if
    it ends by raising, the exception raised after them. *)
Definition generator (A : Type) : Type := list A * option exn.

(** The generator that runs [f x] for every [x] of a list, one after
    the other, and stops with the first that raises. *)
Fixpoint gen_chain {A B} (f : A → generator B) (l : list A) : generator B :=
  match l with
  | [] => ([], None)
  | x :: l' =>
      match snd (f x) with
      | Some e => (fst (f x), Some e)
      | None =>
          ((fst (f x) ++ fst (gen_chain f l'))%list, snd (gen_chain f l'))
      end
  end.

(** ** [str] methods *)

Module str.

(** [s.startswith(p)] *)
Fixpoint startswith (s p : string) {struct p} : bool :=
  match p with
  | "" => true
  | String a p' =>
      match s with
      | "" => false
      | String b s' => if Ascii.eqb a b then startswith s' p' else false
      end
  end.

(** [s.endswith(suf)]: [s] is [suf], or its tail ends with [suf]. *)
Fixpoint endswith (s suf : string) : bool :=
  String.eqb s suf
  || match s with
     | "" => false
     | String _ s' => endswith s' suf
     end.

(** [c in s] for a one-character string [c]. *)
Fixpoint contains (c : ascii) (s : string) : bool :=
  match s with
  | "" => false
  | String b s' => Ascii.eqb b c || contains c s'
  end.

(** [s.split(sep)] for a one-character separator: never empty, and
    [''.split('/')] is [['']]. *)
Fixpoint split (sep : ascii) (s : string) : list string :=
  match s with
  | "" => [""]
  | String c s' =>
      if Ascii.eqb c sep then "" :: split sep s'
      else match split sep s' with
           | [] => [String c ""]
           | w :: ws => String c w :: ws
           end
  end.

(** [sep.join(parts)] *)
Fixpoint join (sep : string) (parts : list string) : string :=
  match parts with
  | [] => ""
  | [p] => p
  | p :: ps => p +:+ sep +:+ join sep ps
  end.

(** [s in l] for a list of strings. *)
Definition In_list (s : string) (l : list string) : bool :=
  existsb (String.eqb s) l.

End str.

(** ** [posixpath] *)

Module posixpath.

Definition sep : ascii := "/"%char.
Definition pardir : string := "..".

(** [posixpath.isabs(s)] is [s.startswith('/')]. *)
Definition isabs (s : string) : bool := str.startswith s "/".

(** [posixpath.join(a, b)] *)
Definition join (a b : string) : string :=
  if str.startswith b "/" then b
  else if String.eqb a "" || str.endswith a "/" then a +:+ b
  else a +:+ "/" +:+ b.

End posixpath.

(** ** [pathlib]: pure paths *)

Module pathlib.

(** A [PurePosixPath]: its root ([""], ["/"] or ["//"]) and its
    components.  POSIX paths have no drive. *)
Record PurePath : Type := { root : string; parts : list string }.

(** [_PosixFlavour.splitroot]: exactly two leading slashes are kept,
    any other number of them is one root. *)
Definition splitroot (s : string) : string :=
  match s with
  | String "/" (String "/" (String "/" _)) => "/"
  | String "/" (String "/" _) => "//"
  | String "/" _ => "/"
  | _ => ""
  end.

(** A component survives parsing when it is neither empty nor ['.']. *)
Definition keep_part (c : string) : bool :=
  negb (String.eqb c "") && negb (String.eqb c ".").

(** [PurePath(s)]: [parse_parts] of one string. *)
Definition parse (s : string) : PurePath :=
  {| root := splitroot s;
     parts := List.filter keep_part (str.split posixpath.sep s) |}.

(** [p / s]: a rooted [s] replaces [p], a relative one is appended. *)
Definition joinpath (p : PurePath) (s : string) : PurePath :=
  let q := parse s in
  if String.eqb (root q) "" then
    {| root := root p; parts := parts p ++ parts q |}
  else q.

(** [p._make_child_relpath(name)]: [name] is appended unparsed. *)
Definition make_child_relpath (p : PurePath) (name : string) : PurePath :=
  {| root := root p; parts := parts p ++ [name] |}.

(** [p.parent]: the path without its last component; a path without
    components is its own parent. *)
Definition parent (p : PurePath) : PurePath :=
  {| root := root p; parts := removelast (parts p) |}.

(** [prefix_rest l1 l2] is [Some r] when [l2 = l1 ++ r]. *)
Fixpoint prefix_rest (l1 l2 : list string) : option (list string) :=
  match l1 with
  | [] => Some l2
  | a :: l1' =>
      match l2 with
      | [] => None
      | b :: l2' => if String.eqb a b then prefix_rest l1' l2' else None
      end
  end.

(** [p.relative_to(other)]: [ValueError] unless both have the same root
    and the components of [other] start those of [p]. *)
Definition relative_to (p other : PurePath) : result PurePath :=
  if String.eqb (root p) (root other) then
    match prefix_rest (parts other) (parts p) with
    | Some rest => Ok {| root := ""; parts := rest |}
    | None => Raise ValueError
    end
  else Raise ValueError.

(** [p.as_posix()], which on POSIX is [str(p)]. *)
Definition as_posix (p : PurePath) : string :=
  match root p, parts p with
  | "", [] => "."
  | r, ps => r +:+ str.join "/" ps
  end.

End pathlib.

(** ** The host file system *)

Module os.

(** A file-system object: a regular file with its content, or a
    directory with its entries in listing order. *)
#[local] Set Warnings "-register-all".
Inductive node : Type :=
  | File (data : list byte)
  | Dir (entries : list (string * node)).

(** The file-system tree from ["/"], the working directory (its
    components from ["/"]) against which relative paths resolve, and
    the limits of the system on the length of a file name ([NAME_MAX])
    and of a path ([PATH_MAX]). *)
Record Host : Type :=
  { fs : node; cwd : list string; name_max : nat; path_max : nat }.

(** Outcome of a path resolution: the object, or why there is none.
    [EINVAL] stands for a path with a NUL character, which Python
    refuses with a [ValueError] before it asks the system. *)
Inductive lookup : Type :=
  | Found (n : node)
  | ENOENT
  | ENOTDIR
  | ENAMETOOLONG
  | EINVAL.

(** The entry called [name] of a directory listing. *)
Fixpoint entry (name : string) (entries : list (string * node)) : option node :=
  match entries with
  | [] => None
  | (n, x) :: rest => if String.eqb n name then Some x else entry name rest
  end.

(** POSIX path resolution, one component at a time.  [up] holds the
    directories above the current one, nearest first; ['..'] steps to
    the nearest, and stays put at the top.  A component longer than
    [name_max] is refused by the directory it is looked up in. *)
Fixpoint walk (name_max : nat) (up : list node) (cur : node)
    (comps : list string) : lookup :=
  match comps with
  | [] => Found cur
  | c :: rest =>
      match cur with
      | File _ => ENOTDIR
      | Dir entries =>
          if String.eqb c ".." then
            match up with
            | [] => walk name_max [] cur rest
            | d :: up' => walk name_max up' d rest
            end
          else if Nat.ltb name_max (String.length c) then ENAMETOOLONG
          else
            match entry c entries with
            | Some n => walk name_max (cur :: up) n rest
            | None => ENOENT
            end
      end
  end.

(** Resolution of the path [str(p)]: refused with a NUL character in
    it, refused by the system when it is [path_max] characters or
    more, and walked otherwise. *)
Definition resolve (h : Host) (p : pathlib.PurePath) : lookup :=
  if str.contains Ascii.zero (pathlib.as_posix p) then EINVAL
  else if Nat.leb (path_max h) (String.length (pathlib.as_posix p))
  then ENAMETOOLONG
  else
    walk (name_max h) [] (fs h)
      (if String.eqb (pathlib.root p) "" then cwd h ++ pathlib.parts p
       else pathlib.parts p).

(** [open(p, 'rb').read()] *)
Definition read (h : Host) (p : pathlib.PurePath) : result (list byte) :=
  match resolve h p with
  | Found (File data) => Ok data
  | Found (Dir _) => Raise IsADirectoryError
  | ENOENT => Raise FileNotFoundError
  | ENOTDIR => Raise NotADirectoryError
  | ENAMETOOLONG => Raise OSError
  | EINVAL => Raise ValueError
  end.

(** [Path.exists()] and [Path.is_dir()]: [False] on [ENOENT], on
    [ENOTDIR] and on a path with a NUL character; any other error of
    the system is raised. *)
Definition exists_ (h : Host) (p : pathlib.PurePath) : result bool :=
  match resolve h p with
  | Found _ => Ok true
  | ENOENT | ENOTDIR | EINVAL => Ok false
  | ENAMETOOLONG => Raise OSError
  end.

Definition is_dir (h : Host) (p : pathlib.PurePath) : result bool :=
  match resolve h p with
  | Found (Dir _) => Ok true
  | Found (File _) | ENOENT | ENOTDIR | EINVAL => Ok false
  | ENAMETOOLONG => Raise OSError
  end.

Definition node_is_dir (n : node) : bool :=
  match n with
  | Dir _ => true
  | File _ => false
  end.

(** [list(os.scandir(p))]: the entries of a directory. *)
Definition scandir (h : Host) (p : pathlib.PurePath)
    : result (list (string * node)) :=
  match resolve h p with
  | Found (Dir entries) => Ok entries
  | Found (File _) => Raise NotADirectoryError
  | ENOENT => Raise FileNotFoundError
  | ENOTDIR => Raise NotADirectoryError
  | ENAMETOOLONG => Raise OSError
  | EINVAL => Raise ValueError
  end.

(** The names a directory lists; none when [p] is not a directory. *)
Definition listing (h : Host) (p : pathlib.PurePath) : list string :=
  match resolve h p with
  | Found (Dir entries) => List.map fst entries
  | _ => []
  end.

End os.

(** ** [fnmatch]: shell-style patterns, as [Path.glob] compiles them *)

Module fnmatch.

(** What [fnmatch.translate] turns a pattern into: ['*'], ['?'], a
    bracket expression (negated or not, as ranges [lo-hi]; a single
    character is the range from itself to itself) or a literal. *)
Inductive item : Type :=
  | Star
  | AnyChar
  | Class (neg : bool) (ranges : list (ascii * ascii))
  | Lit (c : ascii).

(** [s] up to its first [']'], and what follows that [']']. *)
Fixpoint until_close (s : string) : option (string * string) :=
  match s with
  | "" => None
  | String c s' =>
      if Ascii.eqb c "]" then Some ("", s')
      else match until_close s' with
           | Some (body, rest) => Some (String c body, rest)
           | None => None
           end
  end.

(** The text after a ['[']: an optional ['!'], an optional [']'] that
    stands for itself, then everything up to the closing [']'].  [None]
    when there is no closing bracket. *)
Definition bracket (s : string) : option (bool * string * string) :=
  let '(neg, s1) :=
    match s with
    | String "!" s' => (true, s')
    | _ => (false, s)
    end in
  match s1 with
  | String "]" s2 =>
      match until_close s2 with
      | Some (body, rest) => Some (neg, String "]" body, rest)
      | None => None
      end
  | _ =>
      match until_close s1 with
      | Some (body, rest) => Some (neg, body, rest)
      | None => None
      end
  end.

(** The content of a bracket expression as ranges: [a-b] is a range, any
    other character stands for itself.  A range whose bounds are in the
    wrong order is empty here; Python 3.9 refuses such a pattern with
    [re.error]. *)
Fixpoint ranges_of (s : string) : list (ascii * ascii) :=
  match s with
  | "" => []
  | String a (String "-" (String b s')) => (a, b) :: ranges_of s'
  | String a s' => (a, a) :: ranges_of s'
  end.

(** The loop of [fnmatch.translate].  Every turn consumes at least one
    character, so [String.length pat] turns are enough. *)
Fixpoint translate_loop (fuel : nat) (pat : string) : list item :=
  match fuel with
  | O => []
  | S fuel' =>
      match pat with
      | "" => []
      | String c rest =>
          if Ascii.eqb c "*" then Star :: translate_loop fuel' rest
          else if Ascii.eqb c "?" then AnyChar :: translate_loop fuel' rest
          else if Ascii.eqb c "[" then
            match bracket rest with
            | Some (neg, stuff, rest') =>
                Class neg (ranges_of stuff) :: translate_loop fuel' rest'
            | None => Lit "[" :: translate_loop fuel' rest
            end
          else Lit c :: translate_loop fuel' rest
      end
  end.

Definition translate (pat : string) : list item :=
  translate_loop (String.length pat) pat.

Definition in_range (c : ascii) (r : ascii * ascii) : bool :=
  Nat.leb (nat_of_ascii (fst r)) (nat_of_ascii c)
  && Nat.leb (nat_of_ascii c) (nat_of_ascii (snd r)).

(** One character against one item other than ['*']. *)
Definition item_matches (i : item) (c : ascii) : bool :=
  match i with
  | Star => true
  | AnyChar => true
  | Class neg ranges => xorb neg (existsb (in_range c) ranges)
  | Lit c' => Ascii.eqb c' c
  end.

(** [re.fullmatch] of the translated pattern: ['*'] takes any number of
    characters. *)
Fixpoint fullmatch (p : list item) (s : string) {struct p} : bool :=
  match p with
  | [] => String.eqb s ""
  | Star :: p' =>
      (fix star (s : string) : bool :=
         fullmatch p' s
         || match s with
            | "" => false
            | String _ s' => star s'
            end) s
  | i :: p' =>
      match s with
      | "" => false
      | String c s' => item_matches i c && fullmatch p' s'
      end
  end.

(** [fnmatch.fnmatchcase(name, pat)] *)
Definition fnmatchcase (name pat : string) : bool :=
  fullmatch (translate pat) name.

End fnmatch.

(** ** [pathlib.Path.glob] on the host *)

Module glob.

(** [_is_wildcard_pattern] *)
Definition is_wildcard_pattern (pat : string) : bool :=
  str.contains "*" pat || str.contains "?" pat || str.contains "[" pat.

(** The chain of selectors for the components of a pattern, applied to
    [p].  A component with a wildcard filters the entries of [p] by
    name ([_WildcardSelector]); any other component names one child
    ([_PreciseSelector]).  Before the last component only directories
    are followed.  An error of the host other than those [Path.exists]
    and [Path.is_dir] swallow ends the generator.  The recursive ['**']
    is not part of this model: the patterns of this module are
    ['*' + ext] with [ext] starting with a dot and free of ['*']. *)
Fixpoint select_from (h : os.Host) (pats : list string) (p : pathlib.PurePath)
    : generator pathlib.PurePath :=
  match pats with
  | [] => ([p], None)
  | pat :: rest =>
      let dironly := match rest with [] => false | _ :: _ => true end in
      if is_wildcard_pattern pat then
        match os.scandir h p with
        | Ok entries =>
            gen_chain
              (λ e : string * os.node,
                 if (negb dironly || os.node_is_dir (snd e))
                    && fnmatch.fnmatchcase (fst e) pat
                 then select_from h rest (pathlib.make_child_relpath p (fst e))
                 else ([], None))
              entries
        | Raise e => ([], Some e)
        end
      else
        let q := pathlib.make_child_relpath p pat in
        match (if dironly then os.is_dir h q else os.exists_ h q) with
        | Ok true => select_from h rest q
        | Ok false => ([], None)
        | Raise e => ([], Some e)
        end
  end.

(** [p.glob(pattern)] for a non-empty relative pattern: nothing when [p]
    is not a directory. *)
Definition glob (h : os.Host) (p : pathlib.PurePath) (pattern : string)
    : generator pathlib.PurePath :=
  match os.is_dir h p with
  | Ok true => select_from h (pathlib.parts (pathlib.parse pattern)) p
  | Ok false => ([], None)
  | Raise e => ([], Some e)
  end.

End glob.

(** ** Resource handles *)

(** The protocol [importlib_resources.abc.Traversable], in the part this
    module calls, for the handles that are not a [pathlib.Path]: a
    [zipfile.Path] or a compatibility object of [importlib_resources].
    [t_read_text t] is [t.read_text(encoding='utf-8')]. *)
Class Traversable (T : Type) : Type := {
  t_joinpath : T → string → T;
  t_is_dir : T → bool;
  t_iterdir : T → result (list T);
  t_name : T → string;
  t_read_text : T → result string;
  t_read_bytes : T → result (list byte);
}.

(** A resource handle: directory-backed ([pathlib.Path]) or not. *)
Inductive handle (T : Type) : Type :=
  | PosixPath (p : pathlib.PurePath)
  | Other (t : T).
Arguments PosixPath {T} p.
Arguments Other {T} t.

(** What the module reads from the interpreter and the host. *)
Record World (T : Type) : Type := {
  (** [hasattr(sys, 'frozen')] *)
  frozen : bool;
  (** [sys.executable] *)
  executable : string;
  (** [importlib_resources.files(qutebrowser)] *)
  package_files : handle T;
  (** the file system behind every [pathlib.Path] *)
  host : os.Host;
  (** what reading in text mode with [encoding='utf-8'] makes of the
      bytes of a file; [None] is a [UnicodeDecodeError] *)
  decode_utf8 : list byte → option string;
}.
Arguments frozen {T} w.
Arguments executable {T} w.
Arguments package_files {T} w.
Arguments host {T} w.
Arguments decode_utf8 {T} w.

(** ** The state of the module *)

(** A function of the module runs on the current [_resource_cache] and
    leaves a result or an exception, and the cache. *)
Definition M (A : Type) : Type :=
  gmap string string → result A * gmap string string.

#[global] Instance M_ret : MRet M := λ A (a : A) c, (Ok a, c).

#[global] Instance M_bind : MBind M := λ A B (k : A → M B) (m : M A) c,
  match m c with
  | (Ok a, c') => k a c'
  | (Raise e, c') => (Raise e, c')
  end.

(** The cache when the module has been imported (line 51). *)
Definition _resource_cache : gmap string string := ∅.

(** A computation that does not touch the cache. *)
Definition lift {A} (r : result A) : M A := λ c, (r, c).

(** [raise e] *)
Definition raise {A} (e : exn) : M A := lift (Raise e).

(** Reading the global [_resource_cache]. *)
Definition get_cache : M (gmap string string) := λ c, (Ok c, c).

(** [_resource_cache[name] = text] *)
Definition set_cache (name text : string) : M unit :=
  λ c, (Ok tt, <[name := text]> c).

(** [for x in xs: body(x)] *)
Fixpoint for_each {A} (xs : list A) (body : A → M unit) : M unit :=
  match xs with
  | [] => mret tt
  | x :: xs' => _ ← body x; for_each xs' body
  end.

(** [for x in gen: body(x)] *)
Definition for_gen {A} (gen : generator A) (body : A → M unit) : M unit :=
  _ ← for_each (fst gen) body;
  match snd gen with
  | None => mret tt
  | Some e => raise e
  end.

(** ** The module [qutebrowser.utils.resources] *)

Section Resources.

Context {T : Type} `{Traversable T}.
Variable w : World T.

(** The operator [/] on a handle. *)
Definition joinpath (h : handle T) (name : string) : handle T :=
  match h with
  | PosixPath p => PosixPath (pathlib.joinpath p name)
  | Other t => Other (t_joinpath t name)
  end.

(** [h.read_bytes()] *)
Definition read_bytes (h : handle T) : result (list byte) :=
  match h with
  | PosixPath p => os.read (host w) p
  | Other t => t_read_bytes t
  end.

(** [h.read_text(encoding='utf-8')] *)
Definition read_text (h : handle T) : result string :=
  match h with
  | PosixPath p =>
      result_bind (os.read (host w) p)
        (λ data, match decode_utf8 w data with
                 | Some text => Ok text
                 | None => Raise UnicodeDecodeError
                 end)
  | Other t => t_read_text t
  end.

(** [_resource_path(filename)]: the two assertions, then the branch on
    [sys.frozen]. *)
Definition _resource_path (filename : string) : result (handle T) :=
  if posixpath.isabs filename then Raise AssertionError
  else if str.In_list posixpath.pardir (str.split posixpath.sep filename)
  then Raise AssertionError
  else if frozen w then
    Ok (joinpath (PosixPath (pathlib.parent (pathlib.parse (executable w))))
                 filename)
  else Ok (joinpath (package_files w) filename).

(** [with _resource_keyerror_workaround(): body]: a [KeyError] leaving
    the body becomes a [FileNotFoundError]. *)
Definition _resource_keyerror_workaround {A} (body : M A) : M A :=
  λ c, match body c with
       | (Raise KeyError, c') => (Raise FileNotFoundError, c')
       | r => r
       end.

(** The directory branch of [_glob_resources]:
    [yield full_path.relative_to(resource_path).as_posix()] for every
    match, until [relative_to] raises. *)
Fixpoint yield_relative (resource_path : pathlib.PurePath)
    (matches : list pathlib.PurePath) : generator string :=
  match matches with
  | [] => ([], None)
  | full_path :: rest =>
      match pathlib.relative_to full_path resource_path with
      | Ok rel =>
          let g := yield_relative resource_path rest in
          (pathlib.as_posix rel :: fst g, snd g)
      | Raise e => ([], Some e)
      end
  end.

(** [for full_path in matches: yield ...]: the names of the matches,
    then the exception that ended the matches, if any. *)
Definition yield_matches (resource_path : pathlib.PurePath)
    (matches : generator pathlib.PurePath) : generator string :=
  let g := yield_relative resource_path (fst matches) in
  match snd g with
  | Some e => g
  | None => (fst g, snd matches)
  end.

(** [_glob_resources(resource_path, subdir, ext)].  [path] is
    [resource_path / subdir] in both branches of the [isinstance]
    test. *)
Definition _glob_resources (resource_path : handle T) (subdir ext : string)
    : generator string :=
  if str.contains "*" ext then ([], Some AssertionError)
  else if negb (str.startswith ext ".") then ([], Some AssertionError)
  else
    match resource_path with
    | PosixPath rp =>
        let path := pathlib.joinpath rp subdir in
        yield_matches rp (glob.glob (host w) path ("*" +:+ ext))
    | Other t =>
        let path := t_joinpath t subdir in
        if negb (t_is_dir path) then ([], Some AssertionError)
        else
          match t_iterdir path with
          | Ok subpaths =>
              (List.map (λ subpath, posixpath.join subdir (t_name subpath))
                 (List.filter (λ subpath, str.endswith (t_name subpath) ext)
                    subpaths),
               None)
          | Raise e => ([], Some e)
          end
    end.

(** The miss path of [read_file] (lines 131 to 133). *)
Definition read_file_uncached (filename : string) : M string :=
  path ← lift (_resource_path filename);
  _resource_keyerror_workaround (lift (read_text path)).

(** [read_file(filename)] *)
Definition read_file (filename : string) : M string :=
  cache ← get_cache;
  match cache !! filename with
  | Some text => mret text
  | None => read_file_uncached filename
  end.

(** [read_file_binary(filename)] *)
Definition read_file_binary (filename : string) : M (list byte) :=
  path ← lift (_resource_path filename);
  _resource_keyerror_workaround (lift (read_bytes path)).

(** The pairs [preload_resources] walks. *)
Definition preload_pairs : list (string * string) :=
  [("html", ".html"); ("javascript", ".js"); ("javascript/quirks", ".js")].

(** The body of the inner loop (line 116):
    [_resource_cache[name] = read_file(name)]. *)
Definition cache_file (name : string) : M unit :=
  text ← read_file name;
  set_cache name text.

(** [preload_resources()] *)
Definition preload_resources : M unit :=
  resource_path ← lift (_resource_path "");
  for_each preload_pairs
    (λ pair,
       for_gen (_glob_resources resource_path (fst pair) (snd pair))
         cache_file).

End Resources.

(** ** Vocabulary of the specification *)

Section Vocabulary.

Context {T : Type} `{Traversable T}.
Variable w : World T.

(** A name that passes both assertions of [_resource_path]. *)
Definition valid_name (filename : string) : bool :=
  negb (posixpath.isabs filename)
  && negb (str.In_list posixpath.pardir (str.split posixpath.sep filename)).

(** The directory the resources are under, by deployment mode: the
    directory of the executable, or the package. *)
Definition resource_base : handle T :=
  if frozen w
  then PosixPath (pathlib.parent (pathlib.parse (executable w)))
  else package_files w.

(** The root handle [preload_resources] enumerates from: [base / '']. *)
Definition resource_root : handle T := joinpath resource_base "".

(** The names enumeration yields for the configured pairs. *)
Definition discovered : list string :=
  flat_map (λ pair, fst (_glob_resources w resource_root (fst pair) (snd pair)))
    preload_pairs.

(** A direct text read of a name, past the cache. *)
Definition direct_read (filename : string) : result string :=
  fst (read_file_uncached w filename ∅).

(** Every cached text is what a direct read of its name returns. *)
Definition coherent (c : gmap string string) : Prop :=
  ∀ name text, c !! name = Some text → direct_read name = Ok text.

(** What a run over [names] may have done to a cache [c]: every name
    keeps its entry, or it had none, is one of [names], and now holds
    what a direct read of it returns. *)
Definition populated (names : list string) (c c' : gmap string string)
    : Prop :=
  ∀ name,
    c' !! name = c !! name
    ∨ (name ∈ names ∧ c !! name = None
       ∧ ∃ text, direct_read name = Ok text ∧ c' !! name = Some text).

(** Every one of [names] is a key of the cache. *)
Definition cached (names : list string) (c : gmap string string) : Prop :=
  ∀ name, name ∈ names → is_Some (c !! name).

(** The caches the module can hold on an unchanged host: empty at
    import, then whatever a run of [preload_resources] leaves, whether
    it returns or raises.  The readers leave the cache as it is. *)
Inductive reachable : gmap string string → Prop :=
  | reachable_init : reachable _resource_cache
  | reachable_preload c r c' :
      reachable c → preload_resources w c = (r, c') → reachable c'.


(** A string without the wildcard characters of a glob pattern. *)
Definition wildcard_free (s : string) : bool :=
  negb (str.contains "*" s) && negb (str.contains "?" s)
  && negb (str.contains "[" s).

(** An extension that stands for itself in a glob pattern and in a
    path: no wildcard character and no ['/']. *)
Definition literal_ext (ext : string) : bool :=
  wildcard_free ext && negb (str.contains "/" ext).

End Vocabulary.

(** ** Directory listings *)

(** What the name of a directory entry is on a POSIX file system: not
    empty, not ['.'] or ['..'], and without a slash. *)
Definition entry_name_ok (name : string) : bool :=
  negb (str.contains "/" name) && pathlib.keep_part name
  && negb (String.eqb name "..").

(** The directory at [p], if there is one, lists such names only. *)
Definition well_listed (h : os.Host) (p : pathlib.PurePath) : bool :=
  forallb entry_name_ok (os.listing h p).

(** The decoding step of a text read. *)
Definition decode_text {T} (w : World T) (data : list byte) : result string :=
  match decode_utf8 w data with
  | Some text => Ok text
  | None => Raise UnicodeDecodeError
  end.

(** ** An archive-backed handle: an in-memory archive

    The members of an archive in the order of its directory, read the
    way [zipfile.Path] of Python 3.8 and 3.9 reads a zip file whose
    member names are well formed (no empty component, no leading
    slash): directories exist by implication, and a member that is not
    there is a [KeyError]. *)

Module memzip.

Record ZipPath : Type := { members : list (string * list byte); zat : string }.

(** [s.rstrip('/')] *)
Fixpoint rstrip (s : string) : string :=
  match s with
  | "" => ""
  | String c s' =>
      let r := rstrip s' in
      if String.eqb r "" && Ascii.eqb c "/" then "" else String c r
  end.

(** [posixpath.basename] and [posixpath.dirname] of a name without a
    trailing slash. *)
Definition basename (s : string) : string :=
  List.last (str.split posixpath.sep s) "".

Definition dirname (s : string) : string :=
  str.join "/" (removelast (str.split posixpath.sep s)).

(** The directories above a member, nearest first: the proper prefixes
    of its components, each with a trailing slash. *)
Fixpoint parents (before : string) (comps : list string) : list string :=
  match comps with
  | [] | [_] => []
  | c :: rest =>
      let d := before +:+ c +:+ "/" in
      parents d rest ++ [d]
  end.

(** [_dedupe]: the first occurrence of every name, in order. *)
Fixpoint dedupe (seen l : list string) : list string :=
  match l with
  | [] => []
  | x :: l' =>
      if str.In_list x seen then dedupe seen l' else x :: dedupe (x :: seen) l'
  end.

(** [CompleteDirs.namelist]: the members, then the implied directories. *)
Definition namelist (ms : list (string * list byte)) : list string :=
  let names := List.map fst ms in
  names
  ++ dedupe names
       (flat_map (λ n, parents "" (str.split posixpath.sep (rstrip n)))
          names).

(** [CompleteDirs.resolve_dir] *)
Definition resolve_dir (ms : list (string * list byte)) (name : string)
    : string :=
  let names := namelist ms in
  if negb (str.In_list name names) && str.In_list (name +:+ "/") names
  then name +:+ "/" else name.

Definition joinpath (z : ZipPath) (add : string) : ZipPath :=
  {| members := members z;
     zat := resolve_dir (members z) (posixpath.join (zat z) add) |}.

Definition is_dir (z : ZipPath) : bool :=
  String.eqb (zat z) "" || str.endswith (zat z) "/".

Definition is_child (z : ZipPath) (name : string) : bool :=
  String.eqb (dirname (rstrip name)) (rstrip (zat z)).

Definition iterdir (z : ZipPath) : result (list ZipPath) :=
  if is_dir z then
    Ok (List.map (λ n, {| members := members z; zat := n |})
          (List.filter (is_child z) (namelist (members z))))
  else Raise ValueError.

Definition name (z : ZipPath) : string := basename (rstrip (zat z)).

Fixpoint getinfo (ms : list (string * list byte)) (n : string)
    : result (list byte) :=
  match ms with
  | [] => Raise KeyError
  | (m, data) :: rest => if String.eqb m n then Ok data else getinfo rest n
  end.

Definition read_bytes (z : ZipPath) : result (list byte) :=
  getinfo (members z) (zat z).

Definition read_text (decode : list byte → option string) (z : ZipPath)
    : result string :=
  result_bind (read_bytes z)
    (λ data, match decode data with
             | Some text => Ok text
             | None => Raise UnicodeDecodeError
             end).

End memzip.

Definition memzip_traversable (decode : list byte → option string)
    : Traversable memzip.ZipPath :=
  {| t_joinpath := memzip.joinpath;
     t_is_dir := memzip.is_dir;
     t_iterdir := memzip.iterdir;
     t_name := memzip.name;
     t_read_text := memzip.read_text decode;
     t_read_bytes := memzip.read_bytes |}.

(** ** Example hosts *)

Module example.

(** Text mode: [\r\n] and [\r] become [\n]. *)
Fixpoint universal_newlines (s : string) : string :=
  match s with
  | "" => ""
  | String "013" (String "010" s') => String "010" (universal_newlines s')
  | String "013" s' => String "010" (universal_newlines s')
  | String c s' => String c (universal_newlines s')
  end.

(** The codec of the example hosts.  Their files are ASCII, on which
    UTF-8 decoding keeps every byte; this codec refuses any other
    byte. *)
Definition decode (data : list byte) : option string :=
  if forallb (λ b, Nat.ltb (Byte.to_nat b) 128) data
  then Some (universal_newlines (string_of_list_byte data))
  else None.

Definition bytes (s : string) : list byte := list_byte_of_string s.

(** The resource tree of the examples. *)
Definition resources : os.node :=
  os.Dir
    [("html", os.Dir [("log.html", os.File (bytes "<html>log</html>"));
                      ("notes.txt", os.File (bytes "notes"))]);
     ("javascript",
       os.Dir [("scroll.js", os.File (bytes "scroll();"));
               ("quirks", os.Dir [("foo.js", os.File (bytes "foo();"))])]);
     ("img", os.Dir [("favicon.png", os.File [x89; x50; x4e; x47])])].

(** An installed package at [/usr/lib/qutebrowser] and a frozen
    application at [/opt/qb], with the executable [/opt/qb/qutebrowser]. *)
Definition disk : os.Host :=
  {| os.fs :=
       os.Dir
         [("usr", os.Dir [("lib", os.Dir [("qutebrowser", resources)])]);
          ("opt", os.Dir [("qb", match resources with
                                 | os.Dir es =>
                                     os.Dir (("qutebrowser", os.File []) :: es)
                                 | n => n
                                 end)])];
     os.cwd := [];
     os.name_max := 255;
     os.path_max := 4096 |}.

(** The same resources as the members of a zipped package. *)
Definition archive : list (string * list byte) :=
  [("qutebrowser/html/log.html", bytes "<html>log</html>");
   ("qutebrowser/html/notes.txt", bytes "notes");
   ("qutebrowser/javascript/scroll.js", bytes "scroll();");
   ("qutebrowser/javascript/quirks/foo.js", bytes "foo();");
   ("qutebrowser/img/favicon.png", [x89; x50; x4e; x47])].

#[global] Instance traversable : Traversable memzip.ZipPath :=
  memzip_traversable decode.

(** A normal install, a frozen application and a zipped package. *)
Definition installed : World memzip.ZipPath :=
  {| frozen := false;
     executable := "/usr/bin/python3";
     package_files := PosixPath (pathlib.parse "/usr/lib/qutebrowser");
     host := disk;
     decode_utf8 := decode |}.

Definition packaged : World memzip.ZipPath :=
  {| frozen := true;
     executable := "/opt/qb/qutebrowser";
     package_files := PosixPath (pathlib.parse "/usr/lib/qutebrowser");
     host := disk;
     decode_utf8 := decode |}.

Definition zipped : World memzip.ZipPath :=
  {| frozen := false;
     executable := "/usr/bin/python3";
     package_files :=
       Other {| memzip.members := archive; memzip.zat := "qutebrowser/" |};
     host := disk;
     decode_utf8 := decode |}.

(** A package with a file that is not UTF-8 text. *)
Definition damaged : World memzip.ZipPath :=
  {| frozen := false;
     executable := "/usr/bin/python3";
     package_files := PosixPath (pathlib.parse "/srv/qutebrowser");
     host :=
       {| os.fs :=
            os.Dir
              [("srv",
                os.Dir
                  [("qutebrowser",
                    os.Dir
                      [("html",
                        os.Dir [("a.html", os.File (bytes "<p>a</p>"));
                                ("b.html", os.File [xff; xfe]);
                                ("c.html", os.File (bytes "<p>c</p>"))])])])];
          os.cwd := [];
          os.name_max := 255;
          os.path_max := 4096 |};
     decode_utf8 := decode |}.

(** A package directory without any of the resource directories. *)
Definition bare : World memzip.ZipPath :=
  {| frozen := false;
     executable := "/usr/bin/python3";
     package_files := PosixPath (pathlib.parse "/srv");
     host := host damaged;
     decode_utf8 := decode |}.

(** A zipped package without the [html] directory. *)
Definition partial : World memzip.ZipPath :=
  {| frozen := false;
     executable := "/usr/bin/python3";
     package_files :=
       Other {| memzip.members :=
                  [("qutebrowser/javascript/scroll.js", bytes "scroll();")];
                memzip.zat := "qutebrowser/" |};
     host := disk;
     decode_utf8 := decode |}.

End example.


(** Unfolds the plumbing of [M]. *)
Ltac run_M :=
  unfold mbind, M_bind, mret, M_ret, lift, raise, get_cache, set_cache.

(** * Properties *)

(** ** The library model on examples *)

Example split_examples :
  str.split "/" "" = [""]
  ∧ str.split "/" "javascript/quirks/" = ["javascript"; "quirks"; ""]
  ∧ str.split "/" "a//..b/.." = ["a"; ""; "..b"; ".."].
Proof. repeat split; reflexivity. Qed.

Example posixpath_examples :
  posixpath.join "html" "log.html" = "html/log.html"
  ∧ posixpath.join "html/" "log.html" = "html/log.html"
  ∧ posixpath.join "" "log.html" = "log.html"
  ∧ posixpath.join "html" "/log.html" = "/log.html"
  ∧ posixpath.isabs "/html" = true
  ∧ posixpath.isabs "html/" = false.
Proof. repeat split; reflexivity. Qed.

Example endswith_examples :
  str.endswith "foo.js" ".js" = true
  ∧ str.endswith ".js" ".js" = true
  ∧ str.endswith "foo.json" ".js" = false
  ∧ str.endswith "js" ".js" = false.
Proof. repeat split; reflexivity. Qed.

Example pathlib_examples :
  pathlib.parse "/usr//lib/./qutebrowser/"
  = {| pathlib.root := "/"; pathlib.parts := ["usr"; "lib"; "qutebrowser"] |}
  ∧ pathlib.root (pathlib.parse "//host/share") = "//"
  ∧ pathlib.root (pathlib.parse "///usr") = "/"
  ∧ pathlib.joinpath (pathlib.parse "/a") "b/../c"
    = {| pathlib.root := "/"; pathlib.parts := ["a"; "b"; ".."; "c"] |}
  ∧ pathlib.joinpath (pathlib.parse "/a") "/b" = pathlib.parse "/b"
  ∧ pathlib.parent (pathlib.parse "/opt/qb/qutebrowser") = pathlib.parse "/opt/qb"
  ∧ pathlib.parent (pathlib.parse "/") = pathlib.parse "/"
  ∧ pathlib.relative_to (pathlib.parse "/a/b/c") (pathlib.parse "/a")
    = Ok (pathlib.parse "b/c")
  ∧ pathlib.relative_to (pathlib.parse "/x/b") (pathlib.parse "/a")
    = Raise ValueError
  ∧ pathlib.as_posix (pathlib.parse "b//c/") = "b/c"
  ∧ pathlib.as_posix (pathlib.parse "") = ".".
Proof. repeat split; reflexivity. Qed.

Example fnmatch_examples :
  fnmatch.fnmatchcase "scroll.js" "*.js" = true
  ∧ fnmatch.fnmatchcase ".js" "*.js" = true
  ∧ fnmatch.fnmatchcase "scroll.jsx" "*.js" = false
  ∧ fnmatch.fnmatchcase "scroll.js" "*.j?" = true
  ∧ fnmatch.fnmatchcase "scroll.js" "*.[a-k]s" = true
  ∧ fnmatch.fnmatchcase "scroll.js" "*.[!jk]s" = false
  ∧ fnmatch.fnmatchcase "scroll.[s" "*.[s" = true
  ∧ fnmatch.fnmatchcase "scroll.JS" "*.js" = false.
Proof. repeat split; reflexivity. Qed.

Example os_examples :
  os.read example.disk (pathlib.parse "/usr/lib/qutebrowser/html/notes.txt")
  = Ok (example.bytes "notes")
  ∧ os.read example.disk
      (pathlib.parse "/usr/lib/qutebrowser/html/../html/notes.txt")
    = Ok (example.bytes "notes")
  ∧ os.read example.disk (pathlib.parse "/usr/lib/qutebrowser/html")
    = Raise IsADirectoryError
  ∧ os.read example.disk (pathlib.parse "/usr/lib/qutebrowser/html/nope")
    = Raise FileNotFoundError
  ∧ os.read example.disk
      (pathlib.parse "/usr/lib/qutebrowser/html/notes.txt/x")
    = Raise NotADirectoryError
  ∧ os.read example.disk
      (pathlib.parse (String "/" (String Ascii.zero "usr")))
    = Raise ValueError
  ∧ os.read example.disk
      (pathlib.parse ("/usr/" +:+ string_of_list_ascii (repeat "a"%char 256)))
    = Raise OSError
  ∧ os.read example.disk
      (pathlib.parse
         ("/nope/" +:+ string_of_list_ascii (repeat "a"%char 256)))
    = Raise FileNotFoundError
  ∧ os.is_dir example.disk (pathlib.parse "/usr/lib/nope/html") = Ok false
  ∧ os.is_dir example.disk
      (pathlib.parse ("/usr/" +:+ string_of_list_ascii (repeat "a"%char 256)))
    = Raise OSError.
Proof. repeat split; vm_compute; reflexivity. Qed.

Example glob_examples :
  glob.glob example.disk (pathlib.parse "/usr/lib/qutebrowser/html") "*.html"
  = ([pathlib.parse "/usr/lib/qutebrowser/html/log.html"], None)
  ∧ glob.glob example.disk (pathlib.parse "/usr/lib/qutebrowser/nope") "*.html"
    = ([], None)
  ∧ glob.glob example.disk (pathlib.parse "/usr/lib/qutebrowser/javascript")
      "*s/foo.js"
    = ([pathlib.parse "/usr/lib/qutebrowser/javascript/quirks/foo.js"], None)
  ∧ glob.glob example.disk
      (pathlib.parse ("/usr/" +:+ string_of_list_ascii (repeat "a"%char 256)))
      "*.html"
    = ([], Some OSError).
Proof. repeat split; vm_compute; reflexivity. Qed.

Example memzip_examples :
  memzip.namelist example.archive
  = ["qutebrowser/html/log.html"; "qutebrowser/html/notes.txt";
     "qutebrowser/javascript/scroll.js";
     "qutebrowser/javascript/quirks/foo.js"; "qutebrowser/img/favicon.png";
     "qutebrowser/html/"; "qutebrowser/"; "qutebrowser/javascript/";
     "qutebrowser/javascript/quirks/"; "qutebrowser/img/"]
  ∧ memzip.zat
      (memzip.joinpath
         {| memzip.members := example.archive; memzip.zat := "qutebrowser/" |}
         "javascript")
    = "qutebrowser/javascript/"
  ∧ result_bind
      (memzip.iterdir
         {| memzip.members := example.archive;
            memzip.zat := "qutebrowser/javascript/" |})
      (λ subpaths, Ok (List.map memzip.name subpaths))
    = Ok ["scroll.js"; "quirks"].
Proof. repeat split; reflexivity. Qed.

(** ** Strings *)

#[local] Arguments String.append !_ _ / : simpl nomatch.
#[local] Arguments String.eqb : simpl never.
#[local] Arguments Ascii.eqb : simpl never.

Lemma startswith_spec (s p : string) :
  str.startswith s p = true ↔ ∃ rest, s = p +:+ rest.
Proof.
  revert s; induction p as [|a p IH]; intros s; simpl.
  - split; [intros _; by exists s | done].
  - destruct s as [|b s].
    + split; [done | intros [rest Hr]; discriminate].
    + destruct (Ascii.eqb_spec a b) as [->|Hne].
      * rewrite IH. split; intros [rest Hr]; exists rest.
        -- by rewrite Hr.
        -- by injection Hr.
      * split; [done | intros [rest Hr]; injection Hr; congruence].
Qed.

Lemma isabs_spec (s : string) :
  posixpath.isabs s = true ↔ ∃ rest, s = String "/" rest.
Proof. unfold posixpath.isabs. by rewrite startswith_spec. Qed.

Lemma endswith_spec (s suf : string) :
  str.endswith s suf = true ↔ ∃ pre, s = pre +:+ suf.
Proof.
  induction s as [|c s IH]; simpl.
  - rewrite orb_false_r. split.
    + intros ->%String.eqb_eq. by exists "".
    + intros [pre Hp]. apply String.eqb_eq.
      destruct pre; simpl in Hp; [done | discriminate].
  - rewrite orb_true_iff, IH, String.eqb_eq. split.
    + intros [<- | [pre ->]]; [by exists "" | by exists (String c pre)].
    + intros [[|a pre] Hp]; simpl in Hp.
      * by left.
      * right. exists pre. by injection Hp.
Qed.

Lemma In_list_spec (x : string) (l : list string) :
  str.In_list x l = true ↔ x ∈ l.
Proof.
  unfold str.In_list. rewrite existsb_exists, list_elem_of_In. split.
  - by intros (y & Hy & ->%String.eqb_eq).
  - intros Hx. exists x. by rewrite String.eqb_refl.
Qed.

Lemma contains_spec (c : ascii) (s : string) :
  str.contains c s = true ↔ ∃ pre post, s = pre +:+ String c post.
Proof.
  induction s as [|b s IH]; simpl.
  - split; [done | intros ([|??] & post & Hp); discriminate].
  - rewrite orb_true_iff, IH. split.
    + intros [->%Ascii.eqb_eq | (pre & post & ->)].
      * by exists "", s.
      * by exists (String b pre), post.
    + intros ([|a pre] & post & Hp); simpl in Hp; injection Hp as -> ->.
      * left. apply Ascii.eqb_refl.
      * right. by exists pre, post.
Qed.

(** The segments of a name are what lies between its slashes: joined
    with slashes they give the name back, and none has a slash. *)
Lemma split_not_nil (sep : ascii) (s : string) : str.split sep s ≠ [].
Proof.
  destruct s as [|c s]; simpl; [done|].
  destruct (Ascii.eqb c sep); [done|]. by destruct (str.split sep s).
Qed.

Lemma join_split (s : string) : str.join "/" (str.split "/" s) = s.
Proof.
  induction s as [|c s IH]; [done|].
  simpl. destruct (Ascii.eqb_spec c "/") as [->|Hne].
  - pose proof (split_not_nil "/" s) as Hnil.
    simpl. destruct (str.split "/" s) as [|x xs]; [done|].
    by rewrite <- IH.
  - pose proof (split_not_nil "/" s) as Hnil.
    destruct (str.split "/" s) as [|x xs]; [done|].
    rewrite <- IH. by destruct xs.
Qed.

Lemma split_segments (sep : ascii) (s seg : string) :
  seg ∈ str.split sep s → str.contains sep seg = false.
Proof.
  revert seg; induction s as [|c s IH]; intros seg; simpl.
  - by intros ->%list_elem_of_singleton.
  - destruct (Ascii.eqb_spec c sep) as [->|Hne].
    + intros [->|Hin]%elem_of_cons; [done | by apply IH].
    + destruct (str.split sep s) as [|x xs] eqn:Hs.
      * intros ->%list_elem_of_singleton. simpl.
        apply Ascii.eqb_neq in Hne. by rewrite Hne.
      * intros [->|Hin]%elem_of_cons.
        -- simpl. apply Ascii.eqb_neq in Hne. rewrite Hne. simpl.
           apply IH. by left.
        -- apply IH. by right.
Qed.

Lemma split_without_sep (sep : ascii) (s : string) :
  str.contains sep s = false → str.split sep s = [s].
Proof.
  induction s as [|c s IH]; simpl; [done|].
  intros [Hc Hs]%orb_false_iff. rewrite Hc, (IH Hs). done.
Qed.

Lemma valid_name_spec (filename : string) :
  valid_name filename = true
  ↔ (¬ ∃ rest, filename = String "/" rest)
    ∧ ".." ∉ str.split "/" filename.
Proof.
  unfold valid_name. rewrite andb_true_iff, !negb_true_iff.
  rewrite <- isabs_spec, <- In_list_spec, !not_true_iff_false. done.
Qed.

(** ** [pathlib] *)

Lemma parse_empty : pathlib.parse "" = {| pathlib.root := ""; pathlib.parts := [] |}.
Proof. reflexivity. Qed.

Lemma pathlib_joinpath_empty (p : pathlib.PurePath) : pathlib.joinpath p "" = p.
Proof.
  destruct p as [r ps]. unfold pathlib.joinpath. simpl. by rewrite app_nil_r.
Qed.

Lemma prefix_rest_app (l r : list string) :
  pathlib.prefix_rest l (l ++ r) = Some r.
Proof.
  induction l as [|a l IH]; simpl; [done|]. by rewrite String.eqb_refl.
Qed.

(** ** The readers and the resolver *)

Section Readers.

Context {T : Type} `{Traversable T}.
Variable w : World T.

Lemma read_file_uncached_frame (filename : string) (c : gmap string string) :
  read_file_uncached w filename c = (direct_read w filename, c).
Proof.
  unfold direct_read, read_file_uncached, mbind, M_bind, lift,
    _resource_keyerror_workaround.
  destruct (_resource_path w filename) as [path|e]; [|done].
  by destruct (read_text w path) as [text|[]].
Qed.

Lemma direct_read_unfold (filename : string) :
  direct_read w filename =
  result_bind (_resource_path w filename)
    (λ path, match read_text w path with
             | Raise KeyError => Raise FileNotFoundError
             | r => r
             end).
Proof.
  unfold direct_read, read_file_uncached, mbind, M_bind, lift,
    _resource_keyerror_workaround.
  destruct (_resource_path w filename) as [path|e]; [|done].
  simpl. by destruct (read_text w path) as [text|[]].
Qed.

Lemma read_file_hit (filename text : string) (c : gmap string string) :
  c !! filename = Some text → read_file w filename c = (Ok text, c).
Proof.
  intros Hc. unfold read_file. run_M. by rewrite Hc.
Qed.

Lemma read_file_miss (filename : string) (c : gmap string string) :
  c !! filename = None →
  read_file w filename c = (direct_read w filename, c).
Proof.
  intros Hc. unfold read_file. run_M. rewrite Hc.
  apply read_file_uncached_frame.
Qed.

Lemma read_file_frame (filename : string) (c : gmap string string) :
  snd (read_file w filename c) = c.
Proof.
  destruct (c !! filename) as [text|] eqn:Hc.
  - by rewrite (read_file_hit _ _ _ Hc).
  - by rewrite (read_file_miss _ _ Hc).
Qed.

Lemma resource_path_invalid (filename : string) :
  valid_name filename = false → _resource_path w filename = Raise AssertionError.
Proof.
  unfold valid_name, _resource_path.
  destruct (posixpath.isabs filename); [done|].
  by destruct (str.In_list _ _).
Qed.

Lemma resource_path_valid (filename : string) :
  valid_name filename = true →
  _resource_path w filename = Ok (joinpath (resource_base w) filename).
Proof.
  unfold valid_name, _resource_path, resource_base.
  destruct (posixpath.isabs filename); [done|].
  destruct (str.In_list _ _); [done|]. by destruct (frozen w).
Qed.

Lemma resource_path_root : _resource_path w "" = Ok (resource_root w).
Proof. by rewrite resource_path_valid. Qed.

End Readers.

(** ** Patterns: a literal extension matches as a suffix *)

Lemma translate_loop_literal (s : string) (fuel : nat) :
  wildcard_free s = true → (String.length s ≤ fuel)%nat →
  fnmatch.translate_loop fuel s = List.map fnmatch.Lit (list_ascii_of_string s).
Proof.
  unfold wildcard_free. revert fuel.
  induction s as [|c s IH]; intros fuel Hfree Hlen.
  - by destruct fuel.
  - destruct fuel as [|fuel]; simpl in Hlen; [lia|].
    simpl in Hfree. rewrite !negb_orb, !andb_true_iff, !negb_true_iff in Hfree.
    destruct Hfree as [[[Hc1 Hs1] [Hc2 Hs2]] [Hc3 Hs3]].
    simpl. rewrite Hc1, Hc2, Hc3. f_equal. apply IH; [|lia].
    by rewrite Hs1, Hs2, Hs3.
Qed.

Lemma fullmatch_literal (e s : string) :
  fnmatch.fullmatch (List.map fnmatch.Lit (list_ascii_of_string e)) s
  = String.eqb s e.
Proof.
  revert s; induction e as [|a e IH]; intros s; [done|].
  simpl. destruct s as [|c s].
  - symmetry. by apply String.eqb_neq.
  - rewrite IH. destruct (Ascii.eqb_spec a c) as [->|Hne]; simpl.
    + destruct (String.eqb_spec s e) as [->|Hse].
      * symmetry. by apply String.eqb_eq.
      * symmetry. apply String.eqb_neq. congruence.
    + symmetry. apply String.eqb_neq. congruence.
Qed.

Lemma fullmatch_star (p : list fnmatch.item) (s : string) :
  fnmatch.fullmatch (fnmatch.Star :: p) s
  = fnmatch.fullmatch p s
    || match s with
       | "" => false
       | String _ s' => fnmatch.fullmatch (fnmatch.Star :: p) s'
       end.
Proof. by destruct s. Qed.

(** For an extension without wildcard characters, the pattern
    ['*' + ext] matches exactly the names that end with [ext]. *)
Lemma fnmatch_star_literal (name ext : string) :
  wildcard_free ext = true →
  fnmatch.fnmatchcase name ("*" +:+ ext) = str.endswith name ext.
Proof.
  intros Hfree. unfold fnmatch.fnmatchcase.
  change (fnmatch.translate ("*" +:+ ext))
    with (fnmatch.Star :: fnmatch.translate_loop (String.length ext) ext).
  rewrite (translate_loop_literal _ _ Hfree) by done.
  induction name as [|c name IH].
  - rewrite fullmatch_star, fullmatch_literal. done.
  - rewrite fullmatch_star, fullmatch_literal, IH. done.
Qed.

(** ** [Path.glob] with the pattern of [_glob_resources] *)

Lemma flat_map_filter {A B} (f : A → bool) (g : A → B) (l : list A) :
  flat_map (λ a, if f a then [g a] else []) l = List.map g (List.filter f l).
Proof.
  induction l as [|a l IH]; simpl; [done|].
  destruct (f a); simpl; by rewrite IH.
Qed.

Lemma filter_map_fst {A} (f : string → bool) (l : list (string * A)) :
  List.map fst (List.filter (λ e, f (fst e)) l)
  = List.filter f (List.map fst l).
Proof.
  induction l as [|a l IH]; simpl; [done|].
  destruct (f (fst a)); simpl; by rewrite IH.
Qed.

Lemma parse_star_pattern (ext : string) :
  str.contains "/" ext = false →
  pathlib.parts (pathlib.parse ("*" +:+ ext)) = ["*" +:+ ext].
Proof.
  intros Hslash. unfold pathlib.parse, posixpath.sep. cbn [pathlib.parts].
  assert (str.contains "/" ("*" +:+ ext) = false) as Hpat.
  { change (Ascii.eqb "*" "/" || str.contains "/" ext = false).
    by rewrite Hslash. }
  rewrite (split_without_sep _ _ Hpat).
  simpl. unfold pathlib.keep_part.
  replace (String.eqb (String "*" ext) "") with false
    by (symmetry; by apply String.eqb_neq).
  replace (String.eqb (String "*" ext) ".") with false
    by (symmetry; apply String.eqb_neq; congruence).
  done.
Qed.

Lemma gen_chain_filter {A B} (f : A → bool) (g : A → B) (l : list A) :
  gen_chain (λ a, if f a then ([g a], None) else ([], None)) l
  = (List.map g (List.filter f l), None).
Proof.
  induction l as [|a l IH]; [done|].
  cbn [gen_chain List.filter]. destruct (f a); cbn [fst snd]; by rewrite IH.
Qed.

Lemma gen_chain_ext {A B} (f g : A → generator B) (l : list A) :
  (∀ a, f a = g a) → gen_chain f l = gen_chain g l.
Proof.
  intros Hfg. induction l as [|a l IH]; [done|].
  cbn [gen_chain]. by rewrite Hfg, IH.
Qed.

(** The glob of ['*' + ext]: the entries of the directory whose name
    ends with [ext], in listing order, each as a child path of the
    directory; nothing when the path is not a directory; and the error
    of the host when [is_dir] raises. *)
Lemma glob_star_literal (h : os.Host) (p : pathlib.PurePath) (ext : string) :
  wildcard_free ext = true → str.contains "/" ext = false →
  glob.glob h p ("*" +:+ ext)
  = (List.map (pathlib.make_child_relpath p)
       (List.filter (λ name, str.endswith name ext) (os.listing h p)),
     match os.is_dir h p with
     | Raise e => Some e
     | Ok _ => None
     end).
Proof.
  intros Hfree Hslash. unfold glob.glob, os.is_dir, os.listing.
  destruct (os.resolve h p) as [[data|entries]| | | |] eqn:Hres; try done.
  rewrite parse_star_pattern by done. cbn [glob.select_from].
  unfold os.scandir. rewrite Hres. simpl.
  rewrite <- filter_map_fst, List.map_map.
  rewrite <- (gen_chain_filter (λ e, str.endswith (fst e) ext)
                (λ e, pathlib.make_child_relpath p (fst e))).
  apply gen_chain_ext. intros [name n]. simpl.
  by rewrite (fnmatch_star_literal _ _ Hfree).
Qed.

Lemma splitroot_relative (s : string) :
  posixpath.isabs s = false → pathlib.splitroot s = "".
Proof.
  destruct s as [|c s]; [done|].
  unfold posixpath.isabs. simpl.
  destruct (Ascii.eqb_spec "/" c) as [<-|Hne]; [by destruct s|].
  intros _. unfold pathlib.splitroot.
  by destruct c as [[] [] [] [] [] [] [] []].
Qed.

Lemma joinpath_relative (p : pathlib.PurePath) (s : string) :
  posixpath.isabs s = false →
  pathlib.joinpath p s
  = {| pathlib.root := pathlib.root p;
       pathlib.parts := pathlib.parts p ++ pathlib.parts (pathlib.parse s) |}.
Proof.
  intros Hrel. unfold pathlib.joinpath.
  change (pathlib.root (pathlib.parse s)) with (pathlib.splitroot s).
  by rewrite (splitroot_relative _ Hrel).
Qed.

Lemma as_posix_relative (ps : list string) :
  ps ≠ [] →
  pathlib.as_posix {| pathlib.root := ""; pathlib.parts := ps |}
  = str.join "/" ps.
Proof. by destruct ps. Qed.

Lemma append_assoc (a b c : string) : (a +:+ b) +:+ c = a +:+ (b +:+ c).
Proof. induction a as [|x a IH]; simpl; by rewrite ?IH. Qed.

Lemma join_snoc (l : list string) (name : string) :
  l ≠ [] → str.join "/" (l ++ [name]) = str.join "/" l +:+ "/" +:+ name.
Proof.
  induction l as [|a l IH]; [done|]. intros _.
  destruct l as [|b l]; [done|].
  change (str.join "/" ((a :: b :: l) ++ [name]))
    with (a +:+ "/" +:+ str.join "/" ((b :: l) ++ [name])).
  rewrite IH by done.
  change (str.join "/" (a :: b :: l)) with (a +:+ "/" +:+ str.join "/" (b :: l)).
  by rewrite !append_assoc.
Qed.

(** For a subdirectory written without empty or ['.'] components, such
    as those of [preload_resources], the components of the
    subdirectory and a name joined by slashes are the subdirectory, a
    slash and the name. *)
Lemma join_components (subdir name : string) :
  forallb pathlib.keep_part (str.split "/" subdir) = true →
  str.join "/" (pathlib.parts (pathlib.parse subdir) ++ [name])
  = subdir +:+ "/" +:+ name.
Proof.
  intros Hkeep. unfold pathlib.parse, posixpath.sep. cbn [pathlib.parts].
  assert (List.filter pathlib.keep_part (str.split "/" subdir)
          = str.split "/" subdir) as ->.
  { induction (str.split "/" subdir) as [|a l IH]; [done|].
    simpl in *. apply andb_true_iff in Hkeep as [-> Hl]. by rewrite IH. }
  rewrite join_snoc by apply split_not_nil. by rewrite join_split.
Qed.

(** ** Enumeration *)

Section Enumeration.

Context {T : Type} `{Traversable T}.
Variable w : World T.

Lemma glob_resources_assert (rp : handle T) (subdir ext : string) :
  str.contains "*" ext = true ∨ str.startswith ext "." = false →
  _glob_resources w rp subdir ext = ([], Some AssertionError).
Proof.
  unfold _glob_resources. intros [-> | Hdot]; [done|].
  rewrite Hdot. by destruct (str.contains "*" ext).
Qed.

Lemma yield_relative_children (rp : pathlib.PurePath) (sub names : list string) :
  yield_relative rp
    (List.map
       (pathlib.make_child_relpath
          {| pathlib.root := pathlib.root rp;
             pathlib.parts := pathlib.parts rp ++ sub |})
       names)
  = (List.map (λ name, str.join "/" (sub ++ [name])) names, None).
Proof.
  induction names as [|name names IH]; [done|].
  cbn [List.map yield_relative]. rewrite IH.
  unfold pathlib.relative_to, pathlib.make_child_relpath. cbn [pathlib.root pathlib.parts].
  rewrite String.eqb_refl, <- app_assoc, prefix_rest_app.
  cbn [fst snd]. rewrite as_posix_relative; [done|].
  by destruct sub.
Qed.

(** On a directory-backed handle, with a relative subdirectory and a
    literal extension that starts with a dot: the entries of the
    subdirectory whose name ends with the extension, in listing order,
    each as the components of the subdirectory and the name joined by
    slashes; and then the error of the host, if [is_dir] raised one. *)
Lemma glob_resources_directory (rp : pathlib.PurePath) (subdir ext : string) :
  str.startswith ext "." = true → literal_ext ext = true →
  posixpath.isabs subdir = false →
  _glob_resources w (PosixPath rp) subdir ext
  = (List.map
       (λ name,
          str.join "/" (pathlib.parts (pathlib.parse subdir) ++ [name]))
       (List.filter (λ name, str.endswith name ext)
          (os.listing (host w) (pathlib.joinpath rp subdir))),
     match os.is_dir (host w) (pathlib.joinpath rp subdir) with
     | Raise e => Some e
     | Ok _ => None
     end).
Proof.
  intros Hdot [Hfree Hslash%negb_true_iff]%andb_true_iff Hrel.
  unfold _glob_resources. rewrite Hdot.
  assert (str.contains "*" ext = false) as ->.
  { unfold wildcard_free in Hfree.
    by destruct (str.contains "*" ext). }
  cbn [negb]. rewrite (glob_star_literal _ _ _ Hfree Hslash).
  generalize (os.is_dir (host w) (pathlib.joinpath rp subdir)). intros d.
  generalize (List.filter (λ name, str.endswith name ext)
                (os.listing (host w) (pathlib.joinpath rp subdir))).
  intros names. unfold yield_matches. cbn [fst snd].
  rewrite (joinpath_relative _ _ Hrel).
  by rewrite yield_relative_children.
Qed.

(** On any other handle: the assertion on [is_dir], then the entries
    [iterdir] gives whose name ends with the extension, in its order,
    each as [posixpath.join(subdir, name)]. *)
Lemma glob_resources_other (t : T) (subdir ext : string) :
  str.contains "*" ext = false → str.startswith ext "." = true →
  _glob_resources w (Other t) subdir ext
  = if t_is_dir (t_joinpath t subdir) then
      match t_iterdir (t_joinpath t subdir) with
      | Ok subpaths =>
          (List.map (posixpath.join subdir)
             (List.filter (λ name, str.endswith name ext)
                (List.map t_name subpaths)),
           None)
      | Raise e => ([], Some e)
      end
    else ([], Some AssertionError).
Proof.
  intros Hstar Hdot. unfold _glob_resources. rewrite Hstar, Hdot. cbn [negb].
  destruct (t_is_dir (t_joinpath t subdir)); [|done]. cbn [negb].
  destruct (t_iterdir (t_joinpath t subdir)) as [subpaths|e]; [|done].
  f_equal. induction subpaths as [|sp sps IH]; [done|].
  simpl. destruct (str.endswith (t_name sp) ext); simpl; by rewrite IH.
Qed.

End Enumeration.

(** ** Preloading *)

Section Preload.

Context {T : Type} `{Traversable T}.
Variable w : World T.

Lemma cache_file_run (name : string) (c : gmap string string) :
  cache_file w name c =
  match c !! name with
  | Some _ => (Ok tt, c)
  | None =>
      match direct_read w name with
      | Ok text => (Ok tt, <[name := text]> c)
      | Raise e => (Raise e, c)
      end
  end.
Proof.
  unfold cache_file. run_M.
  destruct (c !! name) as [text|] eqn:Hc.
  - rewrite (read_file_hit w _ _ _ Hc). by rewrite (insert_id _ _ _ Hc).
  - rewrite (read_file_miss w _ _ Hc). by destruct (direct_read w name).
Qed.

Lemma populated_refl (names : list string) (c : gmap string string) :
  populated w names c c.
Proof. intros name. by left. Qed.

Lemma populated_app (l1 l2 : list string) (c c1 c2 : gmap string string) :
  populated w l1 c c1 → populated w l2 c1 c2 → populated w (l1 ++ l2) c c2.
Proof.
  intros H1 H2 name.
  destruct (H2 name) as [Heq | (Hin & Hnone & text & Hread & Hc2)].
  - rewrite Heq. destruct (H1 name) as [? | (Hin & Hnone & Hrest)]; [by left|].
    right. split; [|done]. apply elem_of_app. by left.
  - destruct (H1 name) as [Heq | (_ & _ & text' & _ & Hc1)]; [|congruence].
    right. split; [apply elem_of_app; by right|].
    split; [congruence|]. by exists text.
Qed.

Lemma populated_keeps (names : list string) (c c' : gmap string string)
    (name text : string) :
  populated w names c c' → c !! name = Some text → c' !! name = Some text.
Proof.
  intros Hp Hc. destruct (Hp name) as [Heq | (_ & Hnone & _)]; congruence.
Qed.

Lemma cached_keeps (l names : list string) (c c' : gmap string string) :
  populated w l c c' → cached names c → cached names c'.
Proof.
  intros Hp Hc name Hin. destruct (Hc name Hin) as [text Ht].
  exists text. by eapply populated_keeps.
Qed.

Lemma cached_app (l1 l2 : list string) (c : gmap string string) :
  cached l1 c → cached l2 c → cached (l1 ++ l2) c.
Proof.
  intros H1 H2 name [Hin|Hin]%elem_of_app; [by apply H1 | by apply H2].
Qed.

Lemma cache_file_populated (name : string) (c c' : gmap string string)
    (r : result unit) :
  cache_file w name c = (r, c') →
  populated w [name] c c' ∧ (r = Ok tt → cached [name] c').
Proof.
  rewrite cache_file_run.
  destruct (c !! name) as [text|] eqn:Hc.
  - intros [= <- <-]. split; [apply populated_refl|].
    intros _ n ->%list_elem_of_singleton. by exists text.
  - destruct (direct_read w name) as [text|e] eqn:Hread; intros [= <- <-].
    + split.
      * intros n. destruct (decide (n = name)) as [->|Hne].
        -- right. split; [by left|]. split; [done|].
           exists text. by rewrite lookup_insert_eq.
        -- left. by rewrite lookup_insert_ne.
      * intros _ n ->%list_elem_of_singleton.
        exists text. by rewrite lookup_insert_eq.
    + split; [apply populated_refl | done].
Qed.

(** A loop whose every turn populates populates, over the names of all
    its turns. *)
Lemma for_each_populated {A} (names_of : A → list string) (body : A → M unit) :
  (∀ x c r c', body x c = (r, c') →
     populated w (names_of x) c c' ∧ (r = Ok tt → cached (names_of x) c')) →
  ∀ xs c r c', for_each xs body c = (r, c') →
    populated w (flat_map names_of xs) c c'
    ∧ (r = Ok tt → cached (flat_map names_of xs) c').
Proof.
  intros Hbody xs. induction xs as [|x xs IH]; intros c r c'.
  - intros [= <- <-]. split; [apply populated_refl|].
    intros _ name Hin. by apply elem_of_nil in Hin.
  - cbn [for_each flat_map]. unfold mbind, M_bind.
    destruct (body x c) as [[[]|e] c1] eqn:Hx.
    + destruct (Hbody _ _ _ _ Hx) as [Hp1 Hc1]. intros Hrest.
      destruct (IH _ _ _ Hrest) as [Hp2 Hc2]. split.
      * by eapply populated_app.
      * intros Hr. apply cached_app; [|by apply Hc2].
        eapply cached_keeps; [done|]. by apply Hc1.
    + destruct (Hbody _ _ _ _ Hx) as [Hp1 _]. intros [= <- <-]. split; [|done].
      intros name. destruct (Hp1 name) as [?|(Hin & ?)]; [by left|].
      right. split; [|done]. apply elem_of_app. by left.
Qed.

Lemma flat_map_singleton {A} (l : list A) : flat_map (λ x, [x]) l = l.
Proof. induction l as [|x l IH]; simpl; by rewrite ?IH. Qed.

Lemma for_gen_populated (gen : generator string) (c c' : gmap string string)
    (r : result unit) :
  for_gen gen (cache_file w) c = (r, c') →
  populated w (fst gen) c c' ∧ (r = Ok tt → cached (fst gen) c').
Proof.
  unfold for_gen, mbind, M_bind.
  destruct (for_each (fst gen) (cache_file w) c) as [[[]|e] c1] eqn:Hloop.
  - apply (for_each_populated (λ name, [name])) in Hloop;
      [|intros ????; apply cache_file_populated].
    rewrite flat_map_singleton in Hloop. destruct Hloop as [Hp Hc].
    destruct (snd gen); intros [= <- <-]; split; auto.
  - apply (for_each_populated (λ name, [name])) in Hloop;
      [|intros ????; apply cache_file_populated].
    rewrite flat_map_singleton in Hloop. destruct Hloop as [Hp Hc].
    intros [= <- <-]. by split.
Qed.

Lemma preload_unfold (c : gmap string string) :
  preload_resources w c =
  for_each preload_pairs
    (λ pair,
       for_gen (_glob_resources w (resource_root w) (fst pair) (snd pair))
         (cache_file w)) c.
Proof.
  unfold preload_resources, mbind at 1, M_bind at 1, lift.
  by rewrite resource_path_root.
Qed.

Lemma preload_populated (c c' : gmap string string) (r : result unit) :
  preload_resources w c = (r, c') →
  populated w (discovered w) c c' ∧ (r = Ok tt → cached (discovered w) c').
Proof.
  rewrite preload_unfold. intros Hrun.
  apply (for_each_populated
           (λ pair, fst (_glob_resources w (resource_root w)
                           (fst pair) (snd pair)))) in Hrun; [done|].
  intros pair c0 r0 c0'. apply for_gen_populated.
Qed.

Lemma for_gen_ok (gen : generator string) (body : string → M unit)
    (c c' : gmap string string) :
  for_gen gen body c = (Ok tt, c') → snd gen = None.
Proof.
  unfold for_gen, mbind, M_bind.
  destruct (for_each (fst gen) body c) as [[[]|e] c1]; [|done].
  by destruct (snd gen).
Qed.

(** With every name already cached, the inner loop changes nothing. *)
Lemma for_each_cached (names : list string) (c : gmap string string) :
  cached names c → for_each names (cache_file w) c = (Ok tt, c).
Proof.
  induction names as [|name names IH]; intros Hc; [done|].
  cbn [for_each]. unfold mbind, M_bind. rewrite cache_file_run.
  destruct (Hc name) as [text ->]; [by left|].
  apply IH. intros n Hin. apply Hc. by right.
Qed.

Lemma for_gen_cached (gen : generator string) (c : gmap string string) :
  snd gen = None → cached (fst gen) c →
  for_gen gen (cache_file w) c = (Ok tt, c).
Proof.
  intros Hstop Hc. unfold for_gen, mbind, M_bind.
  by rewrite (for_each_cached _ _ Hc), Hstop.
Qed.

(** The inner loop, run again on the cache it left, ends the same way
    and changes nothing: what it had stored it now finds, and it stops
    where it had stopped. *)
Lemma for_each_cache_file_rerun (names : list string)
    (c c1 : gmap string string) (r : result unit) :
  for_each names (cache_file w) c = (r, c1) →
  for_each names (cache_file w) c1 = (r, c1).
Proof.
  revert c. induction names as [|name names IH]; intros c.
  - by intros [= <- <-].
  - cbn [for_each]. unfold mbind, M_bind.
    destruct (cache_file w name c) as [[[]|e] c'] eqn:Hname.
    + intros Hrest.
      destruct (cache_file_populated _ _ _ _ Hname) as [_ Hc'].
      destruct (Hc' eq_refl name) as [text Htext]; [by left|].
      apply (for_each_populated (λ n, [n])) in Hrest as Hp;
        [|intros x c2 r2 c3; apply cache_file_populated].
      destruct Hp as [Hp _].
      rewrite cache_file_run, (populated_keeps _ _ _ _ _ Hp Htext).
      by apply (IH c').
    + intros [= <- <-]. rewrite cache_file_run in Hname.
      destruct (c !! name) as [text|] eqn:Hlook; [done|].
      destruct (direct_read w name) as [text|e'] eqn:Hread; [done|].
      injection Hname as -> ->. by rewrite cache_file_run, Hlook, Hread.
Qed.

Lemma for_gen_rerun (gen : generator string) (c c1 : gmap string string)
    (r : result unit) :
  for_gen gen (cache_file w) c = (r, c1) →
  for_gen gen (cache_file w) c1 = (r, c1).
Proof.
  unfold for_gen, mbind, M_bind.
  destruct (for_each (fst gen) (cache_file w) c) as [[[]|e] c'] eqn:Hloop.
  - apply for_each_cache_file_rerun in Hloop.
    destruct (snd gen) as [e|]; intros [= <- <-]; by rewrite Hloop.
  - apply for_each_cache_file_rerun in Hloop.
    intros [= <- <-]. by rewrite Hloop.
Qed.

Lemma for_each_gen_rerun {A} (gen_of : A → generator string) (xs : list A)
    (c c1 : gmap string string) (r : result unit) :
  for_each xs (λ x, for_gen (gen_of x) (cache_file w)) c = (r, c1) →
  for_each xs (λ x, for_gen (gen_of x) (cache_file w)) c1 = (r, c1).
Proof.
  revert c. induction xs as [|x xs IH]; intros c.
  - by intros [= <- <-].
  - cbn [for_each]. unfold mbind, M_bind.
    destruct (for_gen (gen_of x) (cache_file w) c) as [[[]|e] c'] eqn:Hx.
    + intros Hrest.
      destruct (for_gen_populated _ _ _ _ Hx) as [_ Hc'].
      apply (for_each_populated (λ y, fst (gen_of y))) in Hrest as Hp;
        [|intros y c2 r2 c3; apply for_gen_populated].
      destruct Hp as [Hp _].
      rewrite for_gen_cached.
      * by apply (IH c').
      * by apply for_gen_ok in Hx.
      * eapply cached_keeps; [done|]. by apply Hc'.
    + intros [= <- <-]. by rewrite (for_gen_rerun _ _ _ _ Hx).
Qed.

(** A run of [preload_resources], whether it returned or raised, leaves
    a cache on which the next run ends the same way and changes
    nothing. *)
Lemma preload_rerun (c c1 : gmap string string) (r : result unit) :
  preload_resources w c = (r, c1) →
  preload_resources w c1 = (r, c1).
Proof.
  rewrite !preload_unfold.
  apply (for_each_gen_rerun
           (λ pair, _glob_resources w (resource_root w) (fst pair) (snd pair))).
Qed.

(** ** Coherence *)

Lemma coherent_empty : coherent w ∅.
Proof. intros name text Hc. by rewrite lookup_empty in Hc. Qed.

Lemma populated_coherent (names : list string) (c c' : gmap string string) :
  populated w names c c' → coherent w c → coherent w c'.
Proof.
  intros Hp Hc name text Hlook.
  destruct (Hp name) as [Heq | (_ & _ & text' & Hread & Hc')].
  - apply Hc. congruence.
  - congruence.
Qed.

Lemma reachable_coherent (c : gmap string string) :
  reachable w c → coherent w c.
Proof.
  induction 1 as [|c r c' _ IH Hrun]; [apply coherent_empty|].
  destruct (preload_populated _ _ _ Hrun) as [Hp _].
  by eapply populated_coherent.
Qed.

(** On a coherent cache, [read_file] returns what a direct read does,
    hit or miss. *)
Lemma read_file_coherent (filename : string) (c : gmap string string) :
  coherent w c → fst (read_file w filename c) = direct_read w filename.
Proof.
  intros Hc. destruct (c !! filename) as [text|] eqn:Hlook.
  - rewrite (read_file_hit w _ _ _ Hlook). symmetry. by apply Hc.
  - by rewrite (read_file_miss w _ _ Hlook).
Qed.

(** ** The binary reader *)

Lemma read_file_binary_run (filename : string) (c : gmap string string) :
  read_file_binary w filename c =
  (result_bind (_resource_path w filename)
     (λ path, match read_bytes w path with
              | Raise KeyError => Raise FileNotFoundError
              | r => r
              end),
   c).
Proof.
  unfold read_file_binary, _resource_keyerror_workaround. run_M.
  destruct (_resource_path w filename) as [path|e]; [|done].
  simpl. by destruct (read_bytes w path) as [data|[]].
Qed.

End Preload.

(** * The claims *)

Section Claims.

Context {T : Type} `{Traversable T}.
Variable w : World T.

(** C1.  [read_file(name)] on a name that is a key of the cache returns
    the cached text, on every host alike: nothing is resolved and
    nothing is read.  On any other name it resolves the name, reads the
    handle as UTF-8 text (a [KeyError] of the read leaves as a
    [FileNotFoundError]) and returns or raises accordingly.  In both
    cases the cache after the call is the cache before it. *)
Theorem read_file_hit_or_miss (filename : string) (c : gmap string string) :
  match c !! filename with
  | Some text => ∀ w' : World T, read_file w' filename c = (Ok text, c)
  | None =>
      read_file w filename c =
      (result_bind (_resource_path w filename)
         (λ path, match read_text w path with
                  | Raise KeyError => Raise FileNotFoundError
                  | r => r
                  end),
       c)
  end.
Proof.
  destruct (c !! filename) as [text|] eqn:Hc.
  - intros w'. by apply read_file_hit.
  - rewrite (read_file_miss w _ _ Hc). by rewrite direct_read_unfold.
Qed.

(** C3.  [_resource_path(name)] raises [AssertionError] exactly when the
    name starts with a slash or one of its slash-separated segments is
    [".."]; on every other name it returns a handle. *)
Theorem resource_path_assertions (filename : string) :
  (_resource_path w filename = Raise AssertionError
   ↔ (∃ rest, filename = String "/" rest) ∨ ".." ∈ str.split "/" filename)
  ∧ ((∃ h, _resource_path w filename = Ok h)
     ↔ ¬ ((∃ rest, filename = String "/" rest)
          ∨ ".." ∈ str.split "/" filename)).
Proof.
  destruct (valid_name filename) eqn:Hv.
  - pose proof (resource_path_valid w _ Hv) as Hok.
    apply valid_name_spec in Hv as [Habs Hpar]. rewrite Hok.
    split; split; try done.
    + intros [?|?]; done.
    + intros _. intros [?|?]; done.
    + intros _. by eexists.
  - pose proof (resource_path_invalid w _ Hv) as Hbad. rewrite Hbad.
    assert ((∃ rest, filename = String "/" rest)
            ∨ ".." ∈ str.split "/" filename) as Hinv.
    { unfold valid_name in Hv.
      apply andb_false_iff in Hv as [Hv|Hv]; apply negb_false_iff in Hv.
      - left. by apply isabs_spec.
      - right. by apply In_list_spec. }
    split; split; try done.
    + by intros [h Hh].
Qed.

(** C4.  For a name that passes the assertions, [_resource_path]
    branches on [sys.frozen]: frozen, the handle is the directory of
    the executable joined with the name; otherwise it is the package
    joined with the name.  The empty name gives the root of the
    resource tree of the mode in effect: the directory of the
    executable or the package directory itself, and for a package that
    is not a directory its handle joined with the empty name. *)
Theorem resource_path_by_mode (filename : string) :
  valid_name filename = true →
  _resource_path w filename
  = Ok (if frozen w
        then PosixPath
               (pathlib.joinpath
                  (pathlib.parent (pathlib.parse (executable w))) filename)
        else joinpath (package_files w) filename)
  ∧ _resource_path w ""
    = Ok (if frozen w
          then PosixPath (pathlib.parent (pathlib.parse (executable w)))
          else match package_files w with
               | PosixPath p => PosixPath p
               | Other t => Other (t_joinpath t "")
               end).
Proof.
  intros Hv. rewrite (resource_path_valid w _ Hv), resource_path_root.
  unfold resource_root, resource_base.
  destruct (frozen w); simpl.
  - by rewrite pathlib_joinpath_empty.
  - destruct (package_files w) as [p|t]; simpl; [|done].
    by rewrite pathlib_joinpath_empty.
Qed.

(** C9.  [read_file_binary(name)] resolves the name and returns the
    bytes of the handle (a [KeyError] of the read leaves as a
    [FileNotFoundError]); the cache is neither read nor written: the
    result is the same on every cache, such as the one before and the
    one after [preload_resources], and the cache is left as it was. *)
Theorem read_file_binary_ignores_cache (filename : string)
    (c c' : gmap string string) :
  read_file_binary w filename c
  = (result_bind (_resource_path w filename)
       (λ path, match read_bytes w path with
                | Raise KeyError => Raise FileNotFoundError
                | r => r
                end),
     c)
  ∧ fst (read_file_binary w filename c') = fst (read_file_binary w filename c)
  ∧ fst (read_file_binary w filename (snd (preload_resources w c)))
    = fst (read_file_binary w filename c).
Proof. by rewrite !read_file_binary_run. Qed.

(** C10.  The assertions on the name run on the miss path only: a name
    that fails them, if it is a key of the cache, gets its cached text
    from [read_file]; once it is not a key, [read_file] raises
    [AssertionError]. *)
Theorem read_file_hit_skips_assertions (filename text : string)
    (c : gmap string string) :
  valid_name filename = false →
  c !! filename = Some text →
  read_file w filename c = (Ok text, c)
  ∧ read_file w filename (delete filename c)
    = (Raise AssertionError, delete filename c).
Proof.
  intros Hv Hc. split; [by apply read_file_hit|].
  rewrite read_file_miss by apply lookup_delete_eq.
  by rewrite direct_read_unfold, (resource_path_invalid w _ Hv).
Qed.


(** C6.  [preload_resources()] enumerates the pairs [("html", ".html")],
    [("javascript", ".js")] and [("javascript/quirks", ".js")] from the
    root of the resource tree, and stores under every name it reaches
    what [read_file] returns for it.  So whatever the outcome, an entry
    of the cache is as before or is a discovered name with the text
    [read_file] returned; a name that is not discovered keeps its
    state; and when the call returns (the value [None]), every
    discovered name is a key holding that text. *)
Theorem preload_resources_populates (c c' : gmap string string)
    (r : result unit) :
  preload_resources w c = (r, c') →
  (∀ name,
     name ∈ discovered w
     ↔ ∃ pair,
         pair ∈ [("html", ".html"); ("javascript", ".js");
                 ("javascript/quirks", ".js")]
         ∧ ∃ root, _resource_path w "" = Ok root
                   ∧ name ∈ fst (_glob_resources w root (fst pair) (snd pair)))
  ∧ (∀ name,
       c' !! name = c !! name
       ∨ name ∈ discovered w
         ∧ ∃ text, fst (read_file w name c) = Ok text
                   ∧ c' !! name = Some text)
  ∧ (∀ name, name ∉ discovered w → c' !! name = c !! name)
  ∧ (r = Ok tt →
     ∀ name, name ∈ discovered w →
       ∃ text, fst (read_file w name c) = Ok text ∧ c' !! name = Some text).
Proof.
  intros Hrun. destruct (preload_populated w _ _ _ Hrun) as [Hp Hc].
  split; [|split; [|split]].
  - intros name. unfold discovered. rewrite list_elem_of_In, in_flat_map.
    split.
    + intros (pair & Hpair & Hname). exists pair.
      split; [by apply list_elem_of_In|]. exists (resource_root w).
      split; [apply resource_path_root | by apply list_elem_of_In].
    + intros (pair & Hpair & root & Hroot & Hname). exists pair.
      rewrite resource_path_root in Hroot. injection Hroot as <-.
      split; by apply list_elem_of_In.
  - intros name. destruct (Hp name) as [?|(Hin & Hnone & text & Hread & Hc')];
      [by left|].
    right. split; [done|]. exists text. split; [|done].
    by rewrite (read_file_miss w _ _ Hnone).
  - intros name Hnot. by destruct (Hp name) as [?|(Hin & _)].
  - intros Hr name Hin. destruct (Hc Hr name Hin) as [text Htext].
    exists text. split; [|done].
    destruct (Hp name) as [Heq|(_ & Hnone & text' & Hread & Hc')].
    + rewrite Heq in Htext. by rewrite (read_file_hit w _ _ _ Htext).
    + rewrite (read_file_miss w _ _ Hnone). simpl. congruence.
Qed.

(** C7.  [preload_resources()] is idempotent: on an unchanged host, a
    second call ends the way the first did (it returns, or raises the
    same exception) and leaves the cache exactly as the first left it:
    the same keys with the same texts. *)
Theorem preload_resources_idempotent (c c1 : gmap string string)
    (r : result unit) :
  preload_resources w c = (r, c1) →
  preload_resources w c1 = (r, c1).
Proof. intros Hrun. by apply (preload_rerun w c). Qed.

(** C8.  Cache coherence: on an unchanged host, after a call of
    [preload_resources()], [read_file] returns for every name what a
    direct read of that name returns; and when the call returned,
    every discovered name is a key of the cache, so that [read_file]
    answers from the cache, with the text of the direct read. *)
Theorem preload_cache_coherent (c0 c : gmap string string) (r : result unit) :
  reachable w c0 →
  preload_resources w c0 = (r, c) →
  (∀ name, fst (read_file w name c) = direct_read w name)
  ∧ (r = Ok tt →
     ∀ name, name ∈ discovered w →
       ∃ text,
         c !! name = Some text
         ∧ read_file w name c = (Ok text, c)
         ∧ direct_read w name = Ok text).
Proof.
  intros Hreach Hrun.
  assert (coherent w c) as Hcoh.
  { apply reachable_coherent. by eapply reachable_preload. }
  split; [intros name; by apply read_file_coherent|].
  intros Hr name Hin.
  destruct (preload_populated w _ _ _ Hrun) as [_ Hc].
  destruct (Hc Hr name Hin) as [text Htext]. exists text.
  split; [done|]. split; [by apply read_file_hit | by apply Hcoh].
Qed.

End Claims.

(** * The claims on the example hosts *)

(** C1 on the zipped package: a miss reads the member and leaves the
    cache empty; a hit returns the cached text, here for a name with
    nothing behind it. *)
Example read_file_examples :
  read_file example.zipped "html/log.html" ∅ = (Ok "<html>log</html>", ∅)
  ∧ read_file example.zipped "html/gone.html" {["html/gone.html" := "kept"]}
    = (Ok "kept", {["html/gone.html" := "kept"]})
  ∧ read_file example.zipped "html/gone.html" ∅ = (Raise FileNotFoundError, ∅).
Proof. repeat split; vm_compute; reflexivity. Qed.


(** So does it on a name with a NUL character, which the host is not
    even asked about: both readers raise [ValueError]. *)
Example missing_nul_name_value_error :
  valid_name ("html/a" +:+ String Ascii.zero ".html") = true
  ∧ os.exists_ (host example.installed)
      (pathlib.parse
         ("/usr/lib/qutebrowser/html/a" +:+ String Ascii.zero ".html"))
    = Ok false
  ∧ read_file example.installed ("html/a" +:+ String Ascii.zero ".html") ∅
    = (Raise ValueError, ∅)
  ∧ read_file_binary example.installed
      ("html/a" +:+ String Ascii.zero ".html") ∅
    = (Raise ValueError, ∅).
Proof. repeat split; vm_compute; reflexivity. Qed.


(** C3 on the example hosts. *)
Example resource_path_examples :
  _resource_path example.installed "/etc/passwd" = Raise AssertionError
  ∧ _resource_path example.installed "html/../../secret" = Raise AssertionError
  ∧ _resource_path example.installed "html/..log.html"
    = Ok (PosixPath (pathlib.parse "/usr/lib/qutebrowser/html/..log.html")).
Proof. repeat split; vm_compute; reflexivity. Qed.

(** C4 on the frozen application. *)
Lemma resource_path_by_mode_witness :
  _resource_path example.packaged "html/log.html"
  = Ok (PosixPath (pathlib.parse "/opt/qb/html/log.html"))
  ∧ _resource_path example.packaged "" = Ok (PosixPath (pathlib.parse "/opt/qb")).
Proof.
  apply (resource_path_by_mode example.packaged "html/log.html").
  reflexivity.
Defined.

(** The root of the zipped package is its handle: joining the empty
    name changes nothing. *)
Example resource_root_zipped :
  resource_root example.zipped = package_files example.zipped.
Proof. repeat split; vm_compute; reflexivity. Qed.

(** C5, at an extension with a ['?'].  Both assertions of
    [_glob_resources] pass.  On the installed package (a
    [pathlib.Path]) the entry [scroll.js] of [javascript] is yielded
    although its name does not end with [".j?"]: in the pattern
    ['*' + ext] the ['?'] stands for any character.  On the zipped
    package, which holds the same files, nothing is yielded: that
    branch compares the end of the name with the extension. *)
Theorem glob_question_mark_extension :
  str.contains "*" ".j?" = false
  ∧ str.startswith ".j?" "." = true
  ∧ os.listing (host example.installed)
      (pathlib.parse "/usr/lib/qutebrowser/javascript")
    = ["scroll.js"; "quirks"]
  ∧ _glob_resources example.installed (resource_root example.installed)
      "javascript" ".j?"
    = (["javascript/scroll.js"], None)
  ∧ str.endswith "scroll.js" ".j?" = false
  ∧ _glob_resources example.zipped (resource_root example.zipped)
      "javascript" ".j?"
    = ([], None).
Proof. repeat split; vm_compute; reflexivity. Qed.

(** The enumeration lemmas on the installed package. *)
Example glob_resources_installed :
  _glob_resources example.installed (resource_root example.installed)
    "javascript/quirks" ".js"
  = (["javascript/quirks/foo.js"], None)
  ∧ _glob_resources example.installed (resource_root example.installed)
      "nope" ".js"
    = ([], None).
Proof. repeat split; vm_compute; reflexivity. Qed.

(** C5 on the zipped package. *)
Example glob_resources_zipped :
  _glob_resources example.zipped (resource_root example.zipped)
    "javascript" ".js"
  = (["javascript/scroll.js"], None)
  ∧ _glob_resources example.zipped (resource_root example.zipped)
      "html/log.html" ".html"
    = ([], Some AssertionError).
Proof. repeat split; vm_compute; reflexivity. Qed.

(** The example of the specification: preloading on a tree with
    [html/log.html] and [javascript/quirks/foo.js] caches both, and
    leaves [html/notes.txt] alone. *)
Example preload_example :
  fst (preload_resources example.installed ∅) = Ok tt
  ∧ snd (preload_resources example.installed ∅)
    = {["html/log.html" := "<html>log</html>";
        "javascript/scroll.js" := "scroll();";
        "javascript/quirks/foo.js" := "foo();"]}
  ∧ discovered example.installed
    = ["html/log.html"; "javascript/scroll.js"; "javascript/quirks/foo.js"]
  ∧ snd (preload_resources example.zipped ∅)
    = snd (preload_resources example.installed ∅)
  ∧ snd (preload_resources example.packaged ∅)
    = snd (preload_resources example.installed ∅).
Proof. repeat split; vm_compute; reflexivity. Qed.

(** C6 on the zipped package, from a cache that holds an entry. *)
Lemma preload_resources_populates_witness :
  (snd (preload_resources example.zipped {["html/log.html" := "old"]})
   !! "html/notes.txt" = None)
  ∧ ∃ text,
      fst (read_file example.zipped "javascript/quirks/foo.js"
             {["html/log.html" := "old"]}) = Ok text
      ∧ snd (preload_resources example.zipped {["html/log.html" := "old"]})
        !! "javascript/quirks/foo.js" = Some text.
Proof.
  destruct (preload_resources_populates example.zipped
              {["html/log.html" := "old"]}
              (snd (preload_resources example.zipped
                      {["html/log.html" := "old"]}))
              (Ok tt))
    as (_ & _ & Hkeep & Hall).
  - vm_compute. reflexivity.
  - split.
    + rewrite Hkeep; [reflexivity|].
      rewrite list_elem_of_In. vm_compute. intuition discriminate.
    + apply Hall; [reflexivity|].
      rewrite list_elem_of_In. vm_compute. auto.
Defined.

(** C7 on the frozen application. *)
Lemma preload_resources_idempotent_witness :
  preload_resources example.packaged
    (snd (preload_resources example.packaged _resource_cache))
  = (Ok tt, snd (preload_resources example.packaged _resource_cache)).
Proof.
  apply (preload_resources_idempotent example.packaged _resource_cache).
  vm_compute. reflexivity.
Defined.

(** C8 on the installed package. *)
Lemma preload_cache_coherent_witness :
  ∃ text,
    snd (preload_resources example.installed _resource_cache)
    !! "html/log.html" = Some text
    ∧ read_file example.installed "html/log.html"
        (snd (preload_resources example.installed _resource_cache))
      = (Ok text, snd (preload_resources example.installed _resource_cache))
    ∧ direct_read example.installed "html/log.html" = Ok text.
Proof.
  apply (preload_cache_coherent example.installed _resource_cache
           (snd (preload_resources example.installed _resource_cache))
           (Ok tt)).
  - apply reachable_init.
  - vm_compute. reflexivity.
  - reflexivity.
  - rewrite list_elem_of_In. vm_compute. auto.
Defined.

(** C9 on the installed package: the bytes on disk, before and after
    preloading. *)
Example read_file_binary_example :
  read_file_binary example.installed "img/favicon.png" ∅
  = (Ok [x89; x50; x4e; x47], ∅)
  ∧ fst (read_file_binary example.installed "img/favicon.png"
           (snd (preload_resources example.installed ∅)))
    = Ok [x89; x50; x4e; x47].
Proof. repeat split; vm_compute; reflexivity. Qed.

(** C10 on the installed package, for an absolute name. *)
Lemma read_file_hit_skips_assertions_witness :
  read_file example.installed "/etc/passwd" {["/etc/passwd" := "cached"]}
  = (Ok "cached", {["/etc/passwd" := "cached"]})
  ∧ read_file example.installed "/etc/passwd"
      (delete "/etc/passwd" {["/etc/passwd" := "cached"]})
    = (Raise AssertionError, delete "/etc/passwd" {["/etc/passwd" := "cached"]}).
Proof.
  apply (read_file_hit_skips_assertions example.installed "/etc/passwd"
           "cached" {["/etc/passwd" := "cached"]}).
  - reflexivity.
  - vm_compute. reflexivity.
Defined.

(** A run that raises: the second file of [html] is not text.  The
    first file is cached, the third is not reached, and a second run
    ends the same way on the same cache. *)
Example preload_damaged :
  preload_resources example.damaged _resource_cache
  = (Raise UnicodeDecodeError, {["html/a.html" := "<p>a</p>"]})
  ∧ preload_resources example.damaged {["html/a.html" := "<p>a</p>"]}
    = (Raise UnicodeDecodeError, {["html/a.html" := "<p>a</p>"]}).
Proof. repeat split; vm_compute; reflexivity. Qed.

(** * Further properties *)

(** ** Valid names *)

Lemma parts_no_pardir (s : string) :
  str.In_list posixpath.pardir (str.split posixpath.sep s) = false →
  ".." ∉ pathlib.parts (pathlib.parse s).
Proof.
  intros Hs Hin. apply not_true_iff_false in Hs. apply Hs.
  apply In_list_spec. unfold pathlib.parse in Hin. cbn [pathlib.parts] in Hin.
  apply list_elem_of_In, filter_In in Hin as [Hin _]. by apply list_elem_of_In.
Qed.

Lemma valid_name_parts (s : string) :
  valid_name s = true →
  posixpath.isabs s = false ∧ ".." ∉ pathlib.parts (pathlib.parse s).
Proof.
  unfold valid_name. rewrite andb_true_iff, !negb_true_iff.
  intros [Habs Hpar]. split; [done | by apply parts_no_pardir].
Qed.

(** ** Components and names *)

Lemma split_app_sep (a s : string) :
  str.contains "/" a = false →
  str.split "/" (a +:+ String "/" s) = a :: str.split "/" s.
Proof.
  induction a as [|c a IH]; intros Ha.
  - done.
  - simpl in Ha. apply orb_false_iff in Ha as [Hc Ha].
    change (String c a +:+ String "/" s) with (String c (a +:+ String "/" s)).
    cbn [str.split]. by rewrite Hc, (IH Ha).
Qed.

(** Joining components that have no slash and splitting again gives
    the components back. *)
Lemma split_join (l : list string) :
  l ≠ [] → Forall (λ c, str.contains "/" c = false) l →
  str.split "/" (str.join "/" l) = l.
Proof.
  induction l as [|a l IH]; [done|]. intros _ Hl.
  apply Forall_cons in Hl as [Ha Hl].
  destruct l as [|b l].
  - by apply split_without_sep.
  - change (str.join "/" (a :: b :: l))
      with (a +:+ String "/" (str.join "/" (b :: l))).
    rewrite (split_app_sep _ _ Ha). f_equal. by apply IH.
Qed.

Lemma filter_keep_all (l : list string) :
  Forall (λ c, pathlib.keep_part c = true) l →
  List.filter pathlib.keep_part l = l.
Proof.
  induction 1 as [|a l Ha _ IH]; [done|]. simpl. by rewrite Ha, IH.
Qed.

(** The components of a parsed path are kept components without a
    slash. *)
Lemma parts_parse_ok (s : string) :
  Forall (λ c, str.contains "/" c = false ∧ pathlib.keep_part c = true)
    (pathlib.parts (pathlib.parse s)).
Proof.
  apply Forall_forall. intros c Hin.
  unfold pathlib.parse in Hin. cbn [pathlib.parts] in Hin.
  apply list_elem_of_In, filter_In in Hin as [Hin Hkeep].
  split; [|done]. apply (split_segments "/" s). by apply list_elem_of_In.
Qed.

Lemma join_not_abs (l : list string) :
  Forall (λ c, str.contains "/" c = false ∧ pathlib.keep_part c = true) l →
  posixpath.isabs (str.join "/" l) = false.
Proof.
  destruct l as [|a l]; [done|]. intros [[Hslash Hkeep] _]%Forall_cons.
  destruct a as [|ch a].
  - by vm_compute in Hkeep.
  - simpl in Hslash. apply orb_false_iff in Hslash as [Hch _].
    assert (∀ rest, posixpath.isabs (String ch rest) = false) as Habs.
    { intros rest. unfold posixpath.isabs. cbn [str.startswith].
      rewrite Ascii.eqb_sym. by rewrite Hch. }
    destruct l; apply Habs.
Qed.

(** A name made of well-formed components parses into them. *)
Lemma parse_join (l : list string) :
  l ≠ [] →
  Forall (λ c, str.contains "/" c = false ∧ pathlib.keep_part c = true) l →
  str.split "/" (str.join "/" l) = l
  ∧ pathlib.parts (pathlib.parse (str.join "/" l)) = l.
Proof.
  intros Hnil Hl.
  assert (str.split "/" (str.join "/" l) = l) as Hsplit.
  { apply split_join; [done|]. eapply Forall_impl; [done|]. by intros c [? ?]. }
  split; [done|]. unfold pathlib.parse, posixpath.sep. cbn [pathlib.parts].
  rewrite Hsplit. apply filter_keep_all.
  eapply Forall_impl; [done|]. by intros c [? ?].
Qed.

(** ** The resolver and the readers on a directory-backed tree *)

Section Further.

Context {T : Type} `{Traversable T}.
Variable w : World T.

Lemma resource_root_posix (p : pathlib.PurePath) :
  resource_base w = PosixPath p → resource_root w = PosixPath p.
Proof.
  intros Hbase. unfold resource_root. rewrite Hbase. simpl.
  by rewrite pathlib_joinpath_empty.
Qed.

Lemma resource_path_posix (p : pathlib.PurePath) (filename : string) :
  resource_base w = PosixPath p → valid_name filename = true →
  _resource_path w filename
  = Ok (PosixPath
          {| pathlib.root := pathlib.root p;
             pathlib.parts :=
               pathlib.parts p ++ pathlib.parts (pathlib.parse filename) |}).
Proof.
  intros Hbase Hv. rewrite (resource_path_valid w _ Hv), Hbase. simpl.
  destruct (valid_name_parts _ Hv) as [Habs _].
  by rewrite (joinpath_relative _ _ Habs).
Qed.

Lemma direct_read_posix (p : pathlib.PurePath) (filename : string) :
  resource_base w = PosixPath p → valid_name filename = true →
  direct_read w filename
  = result_bind (os.read (host w) (pathlib.joinpath p filename))
      (decode_text w).
Proof.
  intros Hbase Hv.
  rewrite direct_read_unfold, (resource_path_valid w _ Hv), Hbase. simpl.
  unfold os.read, decode_text.
  destruct (os.resolve (host w) (pathlib.joinpath p filename))
    as [[data|es]| | | |]; simpl; try done.
  by destruct (decode_utf8 w data).
Qed.

Lemma read_file_binary_posix (p : pathlib.PurePath) (filename : string)
    (c : gmap string string) :
  resource_base w = PosixPath p → valid_name filename = true →
  read_file_binary w filename c
  = (os.read (host w) (pathlib.joinpath p filename), c).
Proof.
  intros Hbase Hv.
  rewrite read_file_binary_run, (resource_path_valid w _ Hv), Hbase. simpl.
  unfold os.read.
  by destruct (os.resolve (host w) (pathlib.joinpath p filename))
    as [[data|es]| | | |].
Qed.

(** X1.  Neither reader ever raises [KeyError]: the resolver raises
    nothing but [AssertionError], and a [KeyError] of the read is
    turned into a [FileNotFoundError]. *)
Theorem readers_never_raise_KeyError (filename : string)
    (c : gmap string string) :
  fst (read_file w filename c) ≠ Raise KeyError
  ∧ fst (read_file_binary w filename c) ≠ Raise KeyError.
Proof.
  split.
  - destruct (c !! filename) as [text|] eqn:Hc.
    + by rewrite (read_file_hit w _ _ _ Hc).
    + rewrite (read_file_miss w _ _ Hc), direct_read_unfold. simpl.
      destruct (valid_name filename) eqn:Hv.
      * rewrite (resource_path_valid w _ Hv). simpl.
        by destruct (read_text w _) as [text|[]].
      * by rewrite (resource_path_invalid w _ Hv).
  - rewrite read_file_binary_run. simpl.
    destruct (valid_name filename) eqn:Hv.
    + rewrite (resource_path_valid w _ Hv). simpl.
      by destruct (read_bytes w _) as [data|[]].
    + by rewrite (resource_path_invalid w _ Hv).
Qed.



(** X3.  On a directory-backed tree, names that pass the assertions
    and have the same components (they differ in doubled slashes or
    ['.'] segments) resolve to the same handle, and both readers read
    the same resource for them past the cache. *)
Theorem equal_components_same_resource (p : pathlib.PurePath)
    (name1 name2 : string) (c : gmap string string) :
  resource_base w = PosixPath p →
  valid_name name1 = true →
  valid_name name2 = true →
  pathlib.parts (pathlib.parse name1) = pathlib.parts (pathlib.parse name2) →
  _resource_path w name1 = _resource_path w name2
  ∧ direct_read w name1 = direct_read w name2
  ∧ fst (read_file_binary w name1 c) = fst (read_file_binary w name2 c).
Proof.
  intros Hbase Hv1 Hv2 Hparts.
  assert (_resource_path w name1 = _resource_path w name2) as Hpath.
  { rewrite !(resource_path_posix p) by done. by rewrite Hparts. }
  split; [done|]. split.
  - by rewrite !direct_read_unfold, Hpath.
  - by rewrite !read_file_binary_run, Hpath.
Qed.


(** X5.  On a directory-backed tree, a name that passes the assertions
    and resolves to a directory (the empty name, for one, when the base
    is a directory) makes both readers raise [IsADirectoryError], the
    text reader once the name is not a key of the cache. *)
Theorem readers_on_directory (p : pathlib.PurePath) (filename : string)
    (entries : list (string * os.node)) (c : gmap string string) :
  resource_base w = PosixPath p →
  valid_name filename = true →
  os.resolve (host w) (pathlib.joinpath p filename) = os.Found (os.Dir entries) →
  read_file_binary w filename c = (Raise IsADirectoryError, c)
  ∧ read_file w filename (delete filename c)
    = (Raise IsADirectoryError, delete filename c).
Proof.
  intros Hbase Hv Hdir. split.
  - rewrite (read_file_binary_posix p) by done. unfold os.read. by rewrite Hdir.
  - rewrite read_file_miss by apply lookup_delete_eq.
    rewrite (direct_read_posix p) by done. unfold os.read. by rewrite Hdir.
Qed.

End Further.

(** ** Enumeration and preloading on a directory-backed tree *)

Section FurtherPreload.

Context {T : Type} `{Traversable T}.
Variable w : World T.

Lemma entry_name_ok_spec (name : string) :
  entry_name_ok name = true →
  str.contains "/" name = false ∧ pathlib.keep_part name = true ∧ name ≠ "..".
Proof.
  unfold entry_name_ok. rewrite !andb_true_iff, !negb_true_iff.
  intros [[Hslash Hkeep] Hpar]. by apply String.eqb_neq in Hpar.
Qed.

(** A name enumeration yields from a well-listed directory is made of
    the components of the subdirectory and the name of an entry; it
    passes the assertions of the resolver, and joined to the root it is
    the path of that entry. *)
Lemma enumerated_name_path (p : pathlib.PurePath) (subdir ext name : string) :
  valid_name subdir = true →
  str.startswith ext "." = true → literal_ext ext = true →
  well_listed (host w) (pathlib.joinpath p subdir) = true →
  name ∈ fst (_glob_resources w (PosixPath p) subdir ext) →
  ∃ entry,
    entry ∈ os.listing (host w) (pathlib.joinpath p subdir)
    ∧ str.endswith entry ext = true
    ∧ valid_name name = true
    ∧ pathlib.joinpath p name
      = pathlib.make_child_relpath (pathlib.joinpath p subdir) entry.
Proof.
  intros Hsub Hdot Hlit Hwell Hin.
  destruct (valid_name_parts _ Hsub) as [Habs Hpar].
  rewrite (glob_resources_directory w p subdir ext Hdot Hlit Habs) in Hin.
  cbn [fst] in Hin.
  apply list_elem_of_In, in_map_iff in Hin as (e & <- & He).
  apply filter_In in He as [He Hends].
  unfold well_listed in Hwell. rewrite forallb_forall in Hwell.
  destruct (entry_name_ok_spec _ (Hwell e He)) as (Hslash & Hkeep & Hne).
  set (sp := pathlib.parts (pathlib.parse subdir)) in *.
  assert (Forall (λ c, str.contains "/" c = false ∧ pathlib.keep_part c = true)
            (sp ++ [e])) as Hok.
  { apply Forall_app. split; [apply parts_parse_ok|]. by apply Forall_singleton. }
  assert ((sp ++ [e])%list ≠ []) as Hnil by (by destruct sp).
  destruct (parse_join _ Hnil Hok) as [Hsplit Hparts].
  assert (".." ∉ (sp ++ [e])%list) as Hnopar.
  { intros [Hin|Hin]%elem_of_app; [done|].
    by apply list_elem_of_singleton in Hin as <-. }
  exists e. split; [by apply list_elem_of_In|]. split; [done|]. split.
  - unfold valid_name, posixpath.sep, posixpath.pardir.
    rewrite (join_not_abs _ Hok), Hsplit. simpl.
    apply negb_true_iff, not_true_iff_false. by rewrite In_list_spec.
  - rewrite (joinpath_relative p _ (join_not_abs _ Hok)), Hparts.
    rewrite (joinpath_relative _ _ Habs). unfold pathlib.make_child_relpath.
    cbn [pathlib.root pathlib.parts]. by rewrite app_assoc.
Qed.

(** X6.  Enumeration round trip on a directory-backed tree.  For a
    subdirectory name that passes the assertions of the resolver, a
    literal extension and a directory that lists entry names only,
    every name enumeration yields passes those assertions, and the
    resolver maps it to the path of the entry it came from: the root,
    the subdirectory and the name of the entry, which ends with the
    extension.  That path is the one [read_file_binary] reads. *)
Theorem enumerated_names_resolve (p : pathlib.PurePath)
    (subdir ext name : string) (c : gmap string string) :
  resource_base w = PosixPath p →
  valid_name subdir = true →
  str.startswith ext "." = true →
  literal_ext ext = true →
  well_listed (host w) (pathlib.joinpath p subdir) = true →
  name ∈ fst (_glob_resources w (resource_root w) subdir ext) →
  valid_name name = true
  ∧ ∃ entry,
      entry ∈ os.listing (host w) (pathlib.joinpath p subdir)
      ∧ str.endswith entry ext = true
      ∧ _resource_path w name
        = Ok (PosixPath
                (pathlib.make_child_relpath (pathlib.joinpath p subdir) entry))
      ∧ read_file_binary w name c
        = (os.read (host w)
             (pathlib.make_child_relpath (pathlib.joinpath p subdir) entry),
           c).
Proof.
  intros Hbase Hsub Hdot Hlit Hwell Hin.
  rewrite (resource_root_posix w p Hbase) in Hin.
  destruct (enumerated_name_path p subdir ext name)
    as (entry & Hentry & Hends & Hv & Hpath); try done.
  split; [done|]. exists entry. split; [done|]. split; [done|]. split.
  - rewrite (resource_path_valid w _ Hv), Hbase. simpl. by rewrite Hpath.
  - rewrite (read_file_binary_posix w p) by done. by rewrite Hpath.
Qed.

(** X12.  With an extension that starts with a dot and has no ['*'],
    enumeration yields the entries of the subdirectory whose name ends
    with the extension, all of them and nothing else, in listing
    order.  On a [pathlib.Path], for a relative subdirectory and an
    extension that is literal, each is yielded as the components of
    the subdirectory and the name joined by slashes, and the
    generator ends with the error of [is_dir()] if the host raised
    one.  On any other handle, each is yielded as
    [posixpath.join(subdir, name)], after the assertion that the
    subdirectory is a directory. *)
Theorem enumeration_exact (rp : handle T) (subdir ext : string) :
  str.contains "*" ext = false →
  str.startswith ext "." = true →
  match rp with
  | PosixPath p =>
      literal_ext ext = true → posixpath.isabs subdir = false →
      _glob_resources w rp subdir ext
      = (List.map
           (λ name,
              str.join "/" (pathlib.parts (pathlib.parse subdir) ++ [name]))
           (List.filter (λ name, str.endswith name ext)
              (os.listing (host w) (pathlib.joinpath p subdir))),
         match os.is_dir (host w) (pathlib.joinpath p subdir) with
         | Raise e => Some e
         | Ok _ => None
         end)
  | Other t =>
      _glob_resources w rp subdir ext
      = if t_is_dir (t_joinpath t subdir) then
          match t_iterdir (t_joinpath t subdir) with
          | Ok subpaths =>
              (List.map (posixpath.join subdir)
                 (List.filter (λ name, str.endswith name ext)
                    (List.map t_name subpaths)),
               None)
          | Raise e => ([], Some e)
          end
        else ([], Some AssertionError)
  end.
Proof.
  intros Hstar Hdot. destruct rp as [p|t].
  - intros Hlit Hrel. by apply glob_resources_directory.
  - by apply glob_resources_other.
Qed.

(** A subdirectory that is not there: on a directory-backed handle
    enumeration yields nothing and raises nothing; on any other handle
    it raises [AssertionError]. *)
Lemma glob_resources_missing_subdir (rp : handle T) (subdir ext : string) :
  str.contains "*" ext = false →
  str.startswith ext "." = true →
  match rp with
  | PosixPath p =>
      os.is_dir (host w) (pathlib.joinpath p subdir) = Ok false →
      _glob_resources w rp subdir ext = ([], None)
  | Other t =>
      t_is_dir (t_joinpath t subdir) = false →
      _glob_resources w rp subdir ext = ([], Some AssertionError)
  end.
Proof.
  intros Hstar Hdot. destruct rp as [p|t]; intros Hdir.
  - unfold _glob_resources, glob.glob. by rewrite Hstar, Hdot, Hdir.
  - rewrite (glob_resources_other w) by done. by rewrite Hdir.
Qed.

Lemma for_each_ok {A} (body : A → M unit) (xs : list A)
    (c c' : gmap string string) :
  for_each xs body c = (Ok tt, c') →
  ∀ x, x ∈ xs → ∃ c1 c2, body x c1 = (Ok tt, c2).
Proof.
  revert c. induction xs as [|x xs IH]; intros c Hrun y Hin.
  - by apply elem_of_nil in Hin.
  - cbn [for_each] in Hrun. unfold mbind, M_bind in Hrun.
    destruct (body x c) as [[[]|e] c1] eqn:Hx; [|done].
    apply elem_of_cons in Hin as [->|Hin]; [by exists c, c1|].
    by apply (IH c1).
Qed.

(** X7.  On a directory-backed tree where [is_dir()] is [False] for
    each of the three configured subdirectories, [preload_resources()]
    returns and leaves the cache as it was. *)
Theorem preload_without_directories (p : pathlib.PurePath)
    (c : gmap string string) :
  resource_base w = PosixPath p →
  Forall (λ pair, os.is_dir (host w) (pathlib.joinpath p (fst pair)) = Ok false)
    preload_pairs →
  preload_resources w c = (Ok tt, c).
Proof.
  intros Hbase Hnone. rewrite preload_unfold, (resource_root_posix w p Hbase).
  rewrite Forall_forall in Hnone.
  assert (∀ pair, pair ∈ preload_pairs →
            _glob_resources w (PosixPath p) (fst pair) (snd pair) = ([], None))
    as Hempty.
  { intros pair Hin.
    apply (glob_resources_missing_subdir (PosixPath p)).
    - repeat (apply elem_of_cons in Hin as [->|Hin]; [done|]).
      by apply elem_of_nil in Hin.
    - repeat (apply elem_of_cons in Hin as [->|Hin]; [done|]).
      by apply elem_of_nil in Hin.
    - by apply Hnone. }
  unfold preload_pairs in *. cbn [for_each]. unfold mbind, M_bind.
  rewrite !Hempty by (repeat constructor). done.
Qed.

(** X8.  On a handle that is not a [pathlib.Path], if one of the three
    configured subdirectories is not a directory of the tree,
    [preload_resources()] does not return: it raises. *)
Theorem preload_archive_needs_directories (t : T) (c : gmap string string) :
  resource_base w = Other t →
  existsb (λ pair, negb (t_is_dir (t_joinpath (t_joinpath t "") (fst pair))))
    preload_pairs = true →
  ∃ e, fst (preload_resources w c) = Raise e.
Proof.
  intros Hbase Hsome.
  apply existsb_exists in Hsome as (pair & Hin & Hdir%negb_true_iff).
  apply list_elem_of_In in Hin.
  destruct (preload_resources w c) as [[[]|e] c'] eqn:Hrun; [|by exists e].
  rewrite preload_unfold in Hrun.
  destruct (for_each_ok _ _ _ _ Hrun pair Hin) as (c1 & c2 & Hgen).
  apply for_gen_ok in Hgen.
  unfold resource_root in Hgen. rewrite Hbase in Hgen. simpl in Hgen.
  rewrite (glob_resources_missing_subdir (Other (t_joinpath t ""))) in Hgen;
    [done| | |done];
    repeat (apply elem_of_cons in Hin as [->|Hin]; [done|]);
    by apply elem_of_nil in Hin.
Qed.

(** X9.  [preload_resources()] never replaces an entry: a name that is
    a key before the call keeps its text, whatever the tree now holds
    under that name, and [read_file] goes on returning that text. *)
Theorem preload_keeps_entries (c c' : gmap string string) (r : result unit)
    (name text : string) :
  preload_resources w c = (r, c') →
  c !! name = Some text →
  c' !! name = Some text
  ∧ ∀ w' : World T, read_file w' name c' = (Ok text, c').
Proof.
  intros Hrun Hc. destruct (preload_populated w _ _ _ Hrun) as [Hp _].
  pose proof (populated_keeps w _ _ _ _ _ Hp Hc) as Hc'.
  split; [done|]. intros w'. by apply read_file_hit.
Qed.

Lemma for_each_cache_file_raise (names : list string)
    (c c' : gmap string string) (e : exn) :
  for_each names (cache_file w) c = (Raise e, c') →
  ∃ name, name ∈ names ∧ c' !! name = None ∧ direct_read w name = Raise e.
Proof.
  revert c. induction names as [|name names IH]; intros c; [done|].
  cbn [for_each]. unfold mbind, M_bind. rewrite cache_file_run.
  destruct (c !! name) as [text|] eqn:Hc.
  - intros (n & Hn & Hrest)%IH. exists n. split; [by right | done].
  - destruct (direct_read w name) as [text|e'] eqn:Hread.
    + intros (n & Hn & Hrest)%IH. exists n. split; [by right | done].
    + intros [= <- <-]. exists name. split; [by left | done].
Qed.

Lemma for_gen_raise (gen : generator string) (c c' : gmap string string)
    (e : exn) :
  for_gen gen (cache_file w) c = (Raise e, c') →
  snd gen = Some e
  ∨ ∃ name, name ∈ fst gen ∧ c' !! name = None ∧ direct_read w name = Raise e.
Proof.
  unfold for_gen, mbind, M_bind.
  destruct (for_each (fst gen) (cache_file w) c) as [[[]|e'] c1] eqn:Hloop.
  - destruct (snd gen) as [e'|]; [|done]. intros [= <- <-]. by left.
  - intros [= <- <-]. right. by apply (for_each_cache_file_raise _ c).
Qed.

Lemma for_each_gen_raise {A} (gen_of : A → generator string) (xs : list A)
    (c c' : gmap string string) (e : exn) :
  for_each xs (λ x, for_gen (gen_of x) (cache_file w)) c = (Raise e, c') →
  ∃ x, x ∈ xs
       ∧ (snd (gen_of x) = Some e
          ∨ ∃ name, name ∈ fst (gen_of x) ∧ c' !! name = None
                    ∧ direct_read w name = Raise e).
Proof.
  revert c. induction xs as [|x xs IH]; intros c; [done|].
  cbn [for_each]. unfold mbind, M_bind.
  destruct (for_gen (gen_of x) (cache_file w) c) as [[[]|e'] c1] eqn:Hx.
  - intros (y & Hy & Hrest)%IH. exists y. split; [by right | done].
  - intros [= <- <-]. exists x. split; [by left|]. by apply (for_gen_raise _ c).
Qed.

Lemma preload_raise (c c' : gmap string string) (e : exn) :
  preload_resources w c = (Raise e, c') →
  ∃ pair, pair ∈ preload_pairs
    ∧ (snd (_glob_resources w (resource_root w) (fst pair) (snd pair)) = Some e
       ∨ ∃ name,
           name ∈ fst (_glob_resources w (resource_root w) (fst pair) (snd pair))
           ∧ c' !! name = None ∧ direct_read w name = Raise e).
Proof.
  rewrite preload_unfold.
  apply (for_each_gen_raise
           (λ pair, _glob_resources w (resource_root w) (fst pair) (snd pair))).
Qed.

(** X10.  When [preload_resources()] raises, the exception is the one
    that ended an enumeration of one of the three pairs, or the one a
    direct read raised for a name that enumeration yielded; that name
    is not a key of the cache the call leaves. *)
Theorem preload_error_origin (c c' : gmap string string) (e : exn) :
  preload_resources w c = (Raise e, c') →
  (∃ pair, pair ∈ preload_pairs
     ∧ snd (_glob_resources w (resource_root w) (fst pair) (snd pair)) = Some e)
  ∨ (∃ name, name ∈ discovered w ∧ c' !! name = None
             ∧ direct_read w name = Raise e).
Proof.
  intros (pair & Hin & [Hstop | (name & Hname & Hrest)])%preload_raise.
  - left. by exists pair.
  - right. exists name. split; [|done].
    unfold discovered. apply list_elem_of_In, in_flat_map. exists pair.
    split; by apply list_elem_of_In.
Qed.

(** X11.  On a directory-backed tree whose three configured
    subdirectories list entry names only, an exception that
    [preload_resources()] raises is the one [is_dir()] raised for one
    of the three directories, or the one that reading and decoding an
    entry raised, an entry of one of the three directories whose name
    ends with the extension.  It is never [AssertionError]. *)
Theorem preload_directory_errors (p : pathlib.PurePath)
    (c c' : gmap string string) (e : exn) :
  resource_base w = PosixPath p →
  forallb (λ pair, well_listed (host w) (pathlib.joinpath p (fst pair)))
    preload_pairs = true →
  preload_resources w c = (Raise e, c') →
  ((∃ pair, pair ∈ preload_pairs
      ∧ os.is_dir (host w) (pathlib.joinpath p (fst pair)) = Raise e)
   ∨ (∃ pair entry,
        pair ∈ preload_pairs
        ∧ entry ∈ os.listing (host w) (pathlib.joinpath p (fst pair))
        ∧ str.endswith entry (snd pair) = true
        ∧ result_bind
            (os.read (host w)
               (pathlib.make_child_relpath
                  (pathlib.joinpath p (fst pair)) entry))
            (decode_text w)
          = Raise e))
  ∧ e ≠ AssertionError.
Proof.
  intros Hbase Hwell (pair & Hin & Hcase)%preload_raise.
  rewrite (resource_root_posix w p Hbase) in Hcase.
  rewrite forallb_forall in Hwell.
  pose proof (Hwell pair (proj1 (list_elem_of_In _ _) Hin)) as Hlisted.
  assert (valid_name (fst pair) = true ∧ str.startswith (snd pair) "." = true
          ∧ literal_ext (snd pair) = true) as (Hsub & Hdot & Hlit).
  { repeat (apply elem_of_cons in Hin as [->|Hin]; [done|]).
    by apply elem_of_nil in Hin. }
  destruct (valid_name_parts _ Hsub) as [Habs _].
  destruct Hcase as [Hstop | (name & Hname & _ & Hread)].
  - rewrite (glob_resources_directory w p _ _ Hdot Hlit Habs) in Hstop.
    cbn [snd] in Hstop.
    destruct (os.is_dir (host w) (pathlib.joinpath p (fst pair)))
      as [b|e'] eqn:Hdir; [done|]. injection Hstop as ->. split.
    + left. by exists pair.
    + unfold os.is_dir in Hdir.
      destruct (os.resolve (host w) (pathlib.joinpath p (fst pair)))
        as [[data|es]| | | |]; try done.
      by injection Hdir as <-.
  - destruct (enumerated_name_path p _ _ name Hsub Hdot Hlit Hlisted Hname)
      as (entry & Hentry & Hends & Hv & Hpath).
    rewrite (direct_read_posix w p) in Hread by done. rewrite Hpath in Hread.
    split.
    + right. by exists pair, entry.
    + unfold os.read, decode_text in Hread.
      destruct (os.resolve (host w) _) as [[data|es]| | | |];
        simpl in Hread; try (by injection Hread as <-).
      destruct (decode_utf8 w data); [done|]. by injection Hread as <-.
Qed.

End FurtherPreload.

(** ** The further properties on the example hosts *)


(** X3 on the installed package: three spellings of one resource. *)
Lemma equal_components_same_resource_witness :
  _resource_path example.installed "html//log.html"
  = _resource_path example.installed "./html/log.html"
  ∧ direct_read example.installed "html//log.html"
    = direct_read example.installed "./html/log.html"
  ∧ fst (read_file_binary example.installed "html//log.html" ∅)
    = fst (read_file_binary example.installed "./html/log.html" ∅).
Proof.
  apply (equal_components_same_resource example.installed
           (pathlib.parse "/usr/lib/qutebrowser"));
    reflexivity.
Defined.


(** X5 on the frozen application: the empty name is its directory. *)
Lemma readers_on_directory_witness :
  read_file_binary example.packaged "" ∅ = (Raise IsADirectoryError, ∅)
  ∧ read_file example.packaged "" (delete "" ∅)
    = (Raise IsADirectoryError, delete "" ∅).
Proof.
  eapply (readers_on_directory example.packaged (pathlib.parse "/opt/qb") "");
    reflexivity.
Defined.

(** X6 on the installed package. *)
Lemma enumerated_names_resolve_witness :
  valid_name "javascript/quirks/foo.js" = true
  ∧ ∃ entry,
      entry ∈ os.listing example.disk
                (pathlib.parse "/usr/lib/qutebrowser/javascript/quirks")
      ∧ str.endswith entry ".js" = true
      ∧ _resource_path example.installed "javascript/quirks/foo.js"
        = Ok (PosixPath
                (pathlib.make_child_relpath
                   (pathlib.parse "/usr/lib/qutebrowser/javascript/quirks")
                   entry))
      ∧ read_file_binary example.installed "javascript/quirks/foo.js" ∅
        = (os.read example.disk
             (pathlib.make_child_relpath
                (pathlib.parse "/usr/lib/qutebrowser/javascript/quirks")
                entry),
           ∅).
Proof.
  apply (enumerated_names_resolve example.installed
           (pathlib.parse "/usr/lib/qutebrowser") "javascript/quirks" ".js"
           "javascript/quirks/foo.js" ∅);
    try reflexivity.
  rewrite list_elem_of_In. vm_compute. auto.
Defined.

(** X7 on the package directory without resource directories. *)
Lemma preload_without_directories_witness :
  preload_resources example.bare {["html/log.html" := "kept"]}
  = (Ok tt, {["html/log.html" := "kept"]}).
Proof.
  apply (preload_without_directories example.bare (pathlib.parse "/srv"));
    [reflexivity|].
  repeat constructor.
Defined.

(** X8 on the zipped package without [html]. *)
Lemma preload_archive_needs_directories_witness :
  ∃ e, fst (preload_resources example.partial ∅) = Raise e.
Proof.
  eapply (preload_archive_needs_directories example.partial); reflexivity.
Defined.

(** X9 on the zipped package: the entry is older than the archive. *)
Lemma preload_keeps_entries_witness :
  snd (preload_resources example.zipped {["html/log.html" := "old"]})
  !! "html/log.html" = Some "old"
  ∧ ∀ w' : World memzip.ZipPath,
      read_file w' "html/log.html"
        (snd (preload_resources example.zipped {["html/log.html" := "old"]}))
      = (Ok "old",
         snd (preload_resources example.zipped {["html/log.html" := "old"]})).
Proof.
  apply (preload_keeps_entries example.zipped {["html/log.html" := "old"]}
           (snd (preload_resources example.zipped {["html/log.html" := "old"]}))
           (Ok tt)).
  - vm_compute. reflexivity.
  - vm_compute. reflexivity.
Defined.

(** X10 on the package with a file that is not text. *)
Lemma preload_error_origin_witness :
  (∃ pair, pair ∈ preload_pairs
     ∧ snd (_glob_resources example.damaged (resource_root example.damaged)
              (fst pair) (snd pair)) = Some UnicodeDecodeError)
  ∨ (∃ name, name ∈ discovered example.damaged
             ∧ ({["html/a.html" := "<p>a</p>"]} : gmap string string) !! name
               = None
             ∧ direct_read example.damaged name = Raise UnicodeDecodeError).
Proof.
  apply (preload_error_origin example.damaged ∅).
  vm_compute. reflexivity.
Defined.

(** X11 on the package with a file that is not text: the exception is
    the decoding error of [html/b.html]. *)
Lemma preload_directory_errors_witness :
  ((∃ pair, pair ∈ preload_pairs
      ∧ os.is_dir (host example.damaged)
          (pathlib.joinpath (pathlib.parse "/srv/qutebrowser") (fst pair))
        = Raise UnicodeDecodeError)
   ∨ (∃ pair entry,
        pair ∈ preload_pairs
        ∧ entry ∈ os.listing (host example.damaged)
                    (pathlib.joinpath (pathlib.parse "/srv/qutebrowser")
                       (fst pair))
        ∧ str.endswith entry (snd pair) = true
        ∧ result_bind
            (os.read (host example.damaged)
               (pathlib.make_child_relpath
                  (pathlib.joinpath (pathlib.parse "/srv/qutebrowser")
                     (fst pair)) entry))
            (decode_text example.damaged)
          = Raise UnicodeDecodeError))
  ∧ UnicodeDecodeError ≠ AssertionError.
Proof.
  apply (preload_directory_errors example.damaged
           (pathlib.parse "/srv/qutebrowser") ∅ {["html/a.html" := "<p>a</p>"]}).
  - reflexivity.
  - reflexivity.
  - vm_compute. reflexivity.
Defined.

(** X12 on the installed package: of the entries [scroll.js] and
    [quirks] of [javascript], the first is yielded. *)
Lemma enumeration_exact_witness :
  _glob_resources example.installed
    (PosixPath (pathlib.parse "/usr/lib/qutebrowser")) "javascript" ".js"
  = (["javascript/scroll.js"], None).
Proof.
  exact (enumeration_exact example.installed
           (PosixPath (pathlib.parse "/usr/lib/qutebrowser"))
           "javascript" ".js" eq_refl eq_refl eq_refl eq_refl).
Defined.
